(** * check_ToD: night/day classification of camera-trap images

    A shallow embedding of [src/check_ToD.py] and the properties its
    specification states about it.

    The script has two functions.  [check_ToD] walks a directory tree, reads
    every file that passes a filename test, converts it to HSV, takes the mean
    of the saturation and of the value channel and appends one dictionary per
    image to a list, which it wraps in a data frame.  [main] is the command
    line driver around it.

    What the script gets from outside (the directory tree, the image decoder,
    the colour conversion, the clock, the CSV printer) enters the model as
    fields of three interfaces ([Os.host], [Cv2.lib] and [Script.runtime]);
    what the script itself does is translated line by line. *)

From Stdlib Require Import ZArith Lia Bool.
From Stdlib Require Import Floats.SpecFloat.
From Stdlib Require Import Ascii String.
From stdpp Require Import gmap strings list.

Set Warnings "-register-all".

(** ** Python values used by the script *)

Module Py.

(** Truth value of a string: only the empty string is false. *)
Definition truthy (s : string) : bool :=
  match s with
  | EmptyString => false
  | String _ _ => true
  end.

(** [a or b] on strings: the first operand when it is true, else the
    second.  Nothing is coerced to a boolean. *)
Definition or_ (a b : string) : string := if truthy a then a else b.

(** [s.endswith(suffix)] with a single string argument: the last
    [len(suffix)] characters of [s] are [suffix]. *)
Definition endswith (s suffix : string) : bool :=
  let n := String.length s in
  let k := String.length suffix in
  (k <=? n)%nat && String.eqb (String.substring (n - k) k s) suffix.

(** [sep.join(parts)]. *)
Fixpoint str_join (sep : string) (parts : list string) : string :=
  match parts with
  | [] => ""
  | [p] => p
  | p :: rest => p +:+ sep +:+ str_join sep rest
  end.

(** Floats are IEEE 754 binary64 values, as in CPython and numpy. *)
Definition float : Type := spec_float.

Definition float_of_Z (z : Z) : float := binary_normalize 53 1024 z 0 false.

Definition float_truediv (x y : float) : float := SFdiv 53 1024 x y.

Definition float_sub (x y : float) : float := SFsub 53 1024 x y.

(** [x < y] and [x > y]; both are false as soon as one side is a NaN. *)
Definition float_lt (x y : float) : bool := SFltb x y.
Definition float_gt (x y : float) : bool := SFltb y x.

(** The literal [5.0]. *)
Definition five : float := S754_finite false 5629499534213120 (-50).

(** Exceptions the script can end with. *)
Inductive exn : Type :=
| cv2_error                          (* raised by cv2.cvtColor *)
| AttributeError (attr : string)
| AssertionError (msg : string)
| SystemExit (code : Z).

(** Outcome of a computation that may raise. *)
Inductive result (A : Type) : Type :=
| Ok (a : A)
| Raise (e : exn).
Arguments Ok {A} a.
Arguments Raise {A} e.

Definition bind {A B : Type} (r : result A) (k : A -> result B) : result B :=
  match r with
  | Ok a => k a
  | Raise e => Raise e
  end.

End Py.

Import Py.

Notation "'let!' x ':=' e 'in' k" := (Py.bind e (fun x => k))
  (at level 10, x name, e at level 100, k at level 200).

(** ** numpy arrays as far as the script uses them *)

Module Np.

(** One pixel of a height x width x 3 array of unsigned bytes. *)
Record pixel : Type := Pixel { ch0 : Z; ch1 : Z; ch2 : Z }.

(** The array itself, row by row. *)
Definition array3 : Type := list (list pixel).

(** [a[:, :, 1]] and [a[:, :, 2]], flattened in row-major order. *)
Definition plane1 (a : array3) : list Z := map ch1 (concat a).
Definition plane2 (a : array3) : list Z := map ch2 (concat a).

Definition add_reduce (xs : list Z) : Z := foldr Z.add 0%Z xs.

(** [.mean()] of a plane of bytes: numpy adds the entries up in binary64
    and divides by their number.  Every partial sum is an integer, hence
    exact below 2^53, so the sum is taken in [Z] and converted once.  The
    mean of an empty plane is 0/0, a NaN. *)
Definition mean (xs : list Z) : float :=
  float_truediv (float_of_Z (add_reduce xs)) (float_of_Z (Z.of_nat (length xs))).

End Np.

Import Np.

(** ** The operating system, as far as the script sees it *)

Module Os.

(** What [os.scandir] finds in a directory.  [File] stands for every entry
    whose [is_dir()] is false.  [Dir_unvisited] is a directory that
    [os.walk] lists among the sub-directories but yields nothing for: a
    symbolic link to a directory (followlinks is off) or a directory that
    cannot be scanned (onerror is unset). *)
Inductive entry : Type :=
| File (name : string)
| Dir (name : string) (children : list entry)
| Dir_unvisited (name : string).

(** The host: its path separator [os.sep], [os.path.join] on two
    arguments, the components of [os.path.abspath p] (without the root or
    drive), the tree [os.scandir] finds below a path ([None] when the path
    cannot be scanned), and [os.path.exists]. *)
Class host : Type := Host {
  sep : string;
  path_join : string -> string -> string;
  abspath_parts : string -> list string;
  scandir_tree : string -> option (list entry);
  path_exists : string -> bool
}.

(** One triple yielded by [os.walk].  [below] is not part of the triple:
    it keeps the names descended through from the top, so that the
    components of [abspath directory] are those of the top followed by
    [below] (entry names are single components). *)
Record walk_item : Type := WalkItem {
  directory : string;
  below : list string;
  subdirs : list string;
  files : list string
}.

Definition dirs_of (es : list entry) : list string :=
  flat_map (fun e => match e with
                     | File _ => []
                     | Dir n _ => [n]
                     | Dir_unvisited n => [n]
                     end) es.

Definition nondirs_of (es : list entry) : list string :=
  flat_map (fun e => match e with
                     | File n => [n]
                     | Dir _ _ => []
                     | Dir_unvisited _ => []
                     end) es.

(** The triples [os.walk] yields for the sub-directory entry [e] of the
    directory [top]: top-down, each directory before its sub-directories,
    the sub-directories in the order they were listed. *)
Fixpoint walk_entry `{host} (top : string) (below : list string) (e : entry)
  : list walk_item :=
  match e with
  | Dir n children =>
      let top' := path_join top n in
      let below' := below ++ [n] in
      WalkItem top' below' (dirs_of children) (nondirs_of children)
        :: flat_map (walk_entry top' below') children
  | File _ => []
  | Dir_unvisited _ => []
  end.

(** [os.walk(top)]: nothing when [top] cannot be scanned. *)
Definition walk `{host} (top : string) : list walk_item :=
  match scandir_tree top with
  | None => []
  | Some es =>
      WalkItem top [] (dirs_of es) (nondirs_of es)
        :: flat_map (walk_entry top []) es
  end.

(** [os.path.commonprefix] on two lists of components. *)
Fixpoint commonprefix (a b : list string) : list string :=
  match a, b with
  | x :: a', y :: b' => if String.eqb x y then x :: commonprefix a' b' else []
  | _, _ => []
  end.

(** [os.path.relpath(path, start)] after both paths were made absolute and
    split: drop the common prefix, climb out of what is left of [start],
    descend along what is left of [path]; the empty result is [curdir]. *)
Definition relpath_parts `{host} (path_list start_list : list string) : string :=
  let i := length (commonprefix start_list path_list) in
  let rel_list := replicate (length start_list - i) ".." ++ drop i path_list in
  match rel_list with
  | [] => "."
  | _ :: _ => str_join sep rel_list
  end.

(** [os.path.relpath(item.directory, start=top)] for an item of
    [os.walk(top)]. *)
Definition relpath `{host} (item : walk_item) (top : string) : string :=
  relpath_parts (abspath_parts top ++ below item) (abspath_parts top).

End Os.

Import Os.

(** ** OpenCV, as far as the script uses it *)

Module Cv2.

(** [Mat] is a decoded image (blue, green, red).  [imread] gives [None]
    for a file it cannot decode.  [BGR2HSV] is the conversion
    [cv2.cvtColor(_, cv2.COLOR_BGR2HSV)] performs on a decoded image. *)
Class lib : Type := Lib {
  Mat : Type;
  imread : string -> option Mat;
  BGR2HSV : Mat -> array3
}.

(** [cv2.cvtColor(image, cv2.COLOR_BGR2HSV)]: on [None] it raises. *)
Definition cvtColor `{lib} (image : option Mat) : result array3 :=
  match image with
  | None => Raise cv2_error
  | Some m => Ok (BGR2HSV m)
  end.

End Cv2.

Import Cv2.

(** ** The script *)

Module Script.

(** The dictionary appended for one image. *)
Record row : Type := Row {
  filename : string;
  saturation : float;
  value : float;
  Night : bool
}.

(** A data frame: its column labels and its rows. *)
Record DataFrame : Type := Frame {
  columns : list string;
  rows : list row
}.

(** [pd.DataFrame(data)] for a list of dictionaries with the same keys:
    the columns are the keys of the dictionaries, and there is none when
    the list is empty. *)
Definition pd_DataFrame (data : list row) : DataFrame :=
  match data with
  | [] => Frame [] []
  | _ :: _ => Frame ["filename"; "saturation"; "value"; "Night"] data
  end.

(** Line 56, the test on the file name:
    [f.endswith('.JPG' or '.jpg' or '.JPEG' or '.jpeg')]. *)
Definition passes_filter (f : string) : bool :=
  endswith f (or_ ".JPG" (or_ ".jpg" (or_ ".JPEG" ".jpeg"))).

Section check_ToD.
Context `{host} `{lib}.

(** Lines 56 to 66: the body of the loop over [files], from the list
    [data] before to the list after. *)
Definition visit_file (directory rel_subdir f : string) (data : list row)
  : result (list row) :=
  if passes_filter f then
    let image := imread (directory +:+ "/" +:+ f) in
    let! img_hsv := cvtColor image in
    let saturation := mean (plane1 img_hsv) in
    let value := mean (plane2 img_hsv) in
    if float_lt saturation five then
      Ok (data ++ [Row (rel_subdir +:+ "/" +:+ f) saturation value true])
    else if float_gt saturation five then
      Ok (data ++ [Row (rel_subdir +:+ "/" +:+ f) saturation value false])
    else Ok data
  else Ok data.

(** Line 55: [for f in files]. *)
Fixpoint visit_files (directory rel_subdir : string) (fs : list string)
  (data : list row) : result (list row) :=
  match fs with
  | [] => Ok data
  | f :: fs' =>
      let! data' := visit_file directory rel_subdir f data in
      visit_files directory rel_subdir fs' data'
  end.

(** Lines 53 and 54: [for directory, subdirs, files in os.walk(...)]. *)
Fixpoint visit_items (image_directory : string) (items : list walk_item)
  (data : list row) : result (list row) :=
  match items with
  | [] => Ok data
  | item :: items' =>
      let rel_subdir := relpath item image_directory in
      let! data' := visit_files (directory item) rel_subdir (files item) data in
      visit_items image_directory items' data'
  end.

Definition check_ToD (image_directory : string) : result DataFrame :=
  let data := [] in
  let! data := visit_items image_directory (walk image_directory) data in
  let df := pd_DataFrame data in
  Ok df.

(** What visiting the file [f] of the walk item [item] adds to the list:
    the rows it appends to an empty one.  Used to state where the rows of
    the result come from. *)
Definition emitted (image_directory : string) (item : walk_item) (f : string)
  : list row :=
  match visit_file (directory item) (relpath item image_directory) f [] with
  | Ok new => new
  | Raise _ => []
  end.

End check_ToD.

(** *** The command line driver *)

(** The namespace [parse_args] returns: attribute names to values. *)
Definition getattr (ns : gmap string string) (attr : string) : result string :=
  match ns !! attr with
  | Some v => Ok v
  | None => Raise (AttributeError attr)
  end.

(** What [main] needs besides the host and OpenCV: the text
    [df.to_csv(_, index=False)] writes, the two readings of [time.time()],
    the two renderings of the elapsed time, the help text of the parser,
    and what [parse_args] does when an argument starts with a dash
    (options, help, negative numbers). *)
Class runtime : Type := Runtime {
  to_csv : DataFrame -> string;
  time_at_start : float;
  time_at_end : float;
  format_3f : float -> string;
  format_timespan : float -> string;
  help_text : string;
  parse_dashed : list string -> result (gmap string string)
}.

Definition dashed (s : string) : bool :=
  match s with
  | String "-"%char _ => true
  | _ => false
  end.

(** [parser.parse_args()] for a parser with the two positional arguments
    [image_directory] and [save]: any other number of plain arguments is a
    usage error, exit status 2. *)
Definition parse_args `{runtime} (argv : list string)
  : result (gmap string string) :=
  if existsb dashed argv then parse_dashed argv
  else match argv with
       | [d; s] => Ok (<["save" := s]> (<["image_directory" := d]> ∅))
       | _ => Raise (SystemExit 2)
       end.

(** What a run leaves behind: the lines printed and the files written. *)
Record world : Type := World {
  stdout : list string;
  written : gmap string string
}.

Definition io (A : Type) : Type := world -> result A * world.

Definition io_ret {A : Type} (a : A) : io A := fun w => (Ok a, w).

Definition io_bind {A B : Type} (m : io A) (k : A -> io B) : io B :=
  fun w => match m w with
           | (Ok a, w') => k a w'
           | (Raise e, w') => (Raise e, w')
           end.

Definition lift {A : Type} (r : result A) : io A := fun w => (r, w).

Definition print (line : string) : io unit :=
  fun w => (Ok tt, World (stdout w ++ [line]) (written w)).

(** Opening a file for writing replaces what was there. *)
Definition write_file (path text : string) : io unit :=
  fun w => (Ok tt, World (stdout w) (<[path := text]> (written w))).

Notation "'let*' x ':=' e 'in' k" := (io_bind e (fun x => k))
  (at level 10, x name, e at level 100, k at level 200).
Notation "e ';;' k" := (io_bind e (fun _ => k))
  (at level 100, k at level 200, right associativity).

Definition main `{host} `{lib} `{runtime} (argv : list string) : io unit :=
  (if (length argv =? 0)%nat
   then print help_text ;; lift (Raise (SystemExit 0))
   else io_ret tt) ;;
  let* args := lift (parse_args argv) in
  let* image_directory := lift (getattr args "image_directory") in
  (if path_exists image_directory then io_ret tt
   else lift (Raise (AssertionError
                ("Image directory " +:+ image_directory +:+ " does not exist")))) ;;
  let* output_directory := lift (getattr args "output_directory") in
  (if path_exists output_directory
   then print ("Warning: output_file " +:+ output_directory
               +:+ " already exists and will be overwritten")
   else io_ret tt) ;;
  let start_time := time_at_start in
  print "Starting check." ;;
  let* image_directory := lift (getattr args "image_directory") in
  let* df := lift (check_ToD image_directory) in
  let elapsed := float_sub time_at_end start_time in
  let* save := lift (getattr args "save") in
  write_file (save +:+ ".csv") (to_csv df) ;;
  print ("Finished checking Time of Day in " +:+ format_3f elapsed +:+ " seconds.") ;;
  print ("Finished resizing images in " +:+ format_timespan elapsed +:+ ".").

End Script.

Import Script.

(** ** A sample installation

    Concrete hosts, images and runs on which the lemmas below are tried.
    Images are stored by their HSV arrays, so the conversion has nothing left
    to do; the POSIX and the Windows host hold the same trees and differ in
    the separator only. *)

Module Sample.

(** Infrared: next to no saturation. *)
Definition grey : array3 := [[Pixel 0 0 90; Pixel 0 1 80]].
(** Daylight. *)
Definition vivid : array3 := [[Pixel 30 200 180]; [Pixel 35 180 170]].
(** Mean saturation exactly 5. *)
Definition edge : array3 := [[Pixel 10 4 100; Pixel 10 6 100]].

Definition decode (path : string) : option array3 :=
  if endswith path "/IMG_0001.JPG" then Some grey
  else if endswith path "/a.JPG" then Some vivid
  else if endswith path "/b.JPG" then Some edge
  else if endswith path "/photo.jpeg" then Some vivid
  else None.

(** A second decoder: it differs from [decode] on files the classifier
    never opens. *)
Definition decode' (path : string) : option array3 :=
  if endswith path "/notes.txt" then Some grey else decode path.

Definition stored : lib := Lib array3 decode (fun m => m).
Definition stored' : lib := Lib array3 decode' (fun m => m).

Definition tree (top : string) : option (list entry) :=
  if String.eqb top "CT_Images" then
    Some [File "IMG_0001.JPG"; File "notes.txt";
          Dir "sub" [File "a.JPG"; Dir "deep" [File "b.JPG"; File "a.JPG"]];
          Dir_unvisited "link"; File "photo.jpeg"]
  else if String.eqb top "CT_Edge" then Some [File "b.JPG"]
  else if String.eqb top "CT_Lower" then
    Some [File "photo.jpeg"; File "photo.PNG"; File "photo.JPG.bak"]
  else if String.eqb top "CT_Broken" then
    Some [File "a.JPG"; File "corrupt.JPG"; File "IMG_0001.JPG"]
  else if String.eqb top "CT_Empty" then
    Some [File "notes.txt"; Dir "sub" [File "photo.PNG"]]
  else None.

Definition present (path : string) : bool :=
  match tree path with
  | Some _ => true
  | None => false
  end.

Definition join_by (s : string) (top name : string) : string :=
  if endswith top s then top +:+ name else top +:+ s +:+ name.

(** Relative one-name paths, seen from the working directory /home/ct. *)
Definition posix : host :=
  Host "/" (join_by "/") (fun p => ["home"; "ct"; p]) tree present.

(** The same from C:\Users\ct. *)
Definition windows : host :=
  Host "\" (join_by "\") (fun p => ["Users"; "ct"; p]) tree present.

(** A host that holds the same tree under CT_Images and nothing else, and
    reports no path as existing. *)
Definition elsewhere : host :=
  Host "/" (join_by "/") (fun p => ["srv"; p])
       (fun top => if String.eqb top "CT_Images" then tree top else None)
       (fun _ => false).

Definition plain_runtime : runtime :=
  Runtime (fun df => str_join "," (columns df))
          (float_of_Z 100) (float_of_Z 160)
          (fun _ => "60.000") (fun _ => "1 minute")
          "usage: check_ToD.py [-h] image_directory save"
          (fun _ => Raise (SystemExit 2)).

Definition fresh : world := World [] ∅.

End Sample.

(** ** Notions used by the further properties *)

Module Notions.

(** The walk item with the files that fail the test on their name left
    out. *)
Definition candidates_only (item : walk_item) : walk_item :=
  WalkItem (directory item) (below item) (subdirs item)
           (List.filter passes_filter (files item)).

(** Whether the character [c] occurs in [s]. *)
Fixpoint has_char (c : ascii) (s : string) : bool :=
  match s with
  | EmptyString => false
  | String d t => Ascii.eqb c d || has_char c t
  end.

(** A name as a directory listing gives it on a host whose separator is the
    character [c]: a single component, not the name of the directory
    itself. *)
Definition plain_name (c : ascii) (s : string) : Prop :=
  has_char c s = false /\ has_char "/" s = false /\ s <> ".".

Definition entry_name (e : entry) : string :=
  match e with
  | File n => n
  | Dir n _ => n
  | Dir_unvisited n => n
  end.

(** A listing as a file system gives it: plain names, no name twice in a
    directory, and so on below. *)
Fixpoint listed (c : ascii) (e : entry) : Prop :=
  match e with
  | File n => plain_name c n
  | Dir_unvisited n => plain_name c n
  | Dir n children =>
      plain_name c n
      /\ NoDup (entry_name <$> children)
      /\ (fix all (l : list entry) : Prop :=
            match l with
            | [] => True
            | x :: l' => listed c x /\ all l'
            end) children
  end.

Definition listing (c : ascii) (es : list entry) : Prop :=
  NoDup (entry_name <$> es) /\ Forall (listed c) es.

End Notions.

Import Notions.

(** The sample tree without the files the classifier passes over. *)
Module Pruned.

Definition tree (top : string) : option (list entry) :=
  if String.eqb top "CT_Images" then
    Some [File "IMG_0001.JPG";
          Dir "sub" [File "a.JPG"; Dir "deep" [File "b.JPG"; File "a.JPG"]];
          Dir_unvisited "link"]
  else None.

Definition posix : host :=
  Host "/" (Sample.join_by "/") (fun p => ["home"; "ct"; p]) tree Sample.present.

End Pruned.

(** A decoder that finds the same infrared image, without any saturation, in
    every file. *)
Module Infrared.

Definition dark : array3 := [[Pixel 0 0 90; Pixel 0 0 80]; [Pixel 0 0 85; Pixel 0 0 60]].

Definition stored : lib := Lib array3 (fun _ => Some dark) (fun m => m).

End Infrared.

(** * Properties *)

(** Case analysis on [x ∈ l] for a list [l] written out. *)
Ltac members H :=
  repeat (apply elem_of_cons in H as [-> | H]); [.. | inversion H].

(** ** The model at work *)

Example or_chain_is_its_first_operand :
  or_ ".JPG" (or_ ".jpg" (or_ ".JPEG" ".jpeg")) = ".JPG".
Proof. reflexivity. Qed.

Example endswith_needs_the_whole_suffix :
  endswith "IMG_0001.JPG" ".JPG" = true /\ endswith "JPG" ".JPG" = false
  /\ endswith "IMG_0001.JPG.bak" ".JPG" = false.
Proof. repeat split. Qed.

Example five_is_5 : five = float_of_Z 5.
Proof. reflexivity. Qed.

Example mean_of_14_over_3 :
  mean [4; 5; 5]%Z = S754_finite false 5254199565265579 (-50)
  /\ float_lt (mean [4; 5; 5]%Z) five = true.
Proof. split; vm_compute; reflexivity. Qed.

Example mean_of_nothing_is_nan :
  mean [] = S754_nan
  /\ float_lt (mean []) five = false /\ float_gt (mean []) five = false.
Proof. repeat split. Qed.

Example relpath_climbs :
  relpath_parts (H := Sample.posix) ["home"; "ct"; "a"; "b"] ["home"; "ct"; "c"]
  = "../a/b".
Proof. reflexivity. Qed.

Example walk_is_top_down :
  directory <$> walk (H := Sample.posix) "CT_Images"
  = ["CT_Images"; "CT_Images/sub"; "CT_Images/sub/deep"]
  /\ files <$> walk (H := Sample.posix) "CT_Images"
     = [["IMG_0001.JPG"; "notes.txt"; "photo.jpeg"]; ["a.JPG"]; ["b.JPG"; "a.JPG"]]
  /\ walk (H := Sample.posix) "nowhere" = [].
Proof. repeat split. Qed.

Example main_without_arguments :
  main (H := Sample.posix) (H0 := Sample.stored) (H1 := Sample.plain_runtime)
       [] Sample.fresh
  = (Raise (SystemExit 0),
     World ["usage: check_ToD.py [-h] image_directory save"] ∅).
Proof. reflexivity. Qed.

(** ** Strings *)

Section Strings.

Lemma append_cons (c : ascii) (a b : string) :
  String c a +:+ b = String c (a +:+ b).
Proof. reflexivity. Qed.

Lemma length_append (a b : string) :
  String.length (a +:+ b) = String.length a + String.length b.
Proof.
  induction a as [|c a IH]; [reflexivity|].
  rewrite append_cons. simpl. now rewrite IH.
Qed.

Lemma substring_whole (s : string) : substring 0 (String.length s) s = s.
Proof. induction s as [|c s IH]; simpl; [reflexivity | now rewrite IH]. Qed.

Lemma substring_append_right (p s : string) :
  substring (String.length p) (String.length s) (p +:+ s) = s.
Proof.
  induction p as [|c p IH]; [apply substring_whole|].
  rewrite append_cons. exact IH.
Qed.

Lemma substring_split (s : string) (i : nat) :
  i <= String.length s ->
  substring 0 i s +:+ substring i (String.length s - i) s = s.
Proof.
  revert i. induction s as [|c s IH]; intros [|i] Hi; simpl in *.
  - reflexivity.
  - lia.
  - now rewrite substring_whole.
  - rewrite append_cons, IH by lia. reflexivity.
Qed.

(** [endswith] is the suffix relation. *)
Lemma endswith_spec (s suffix : string) :
  endswith s suffix = true <-> exists p, s = p +:+ suffix.
Proof.
  unfold endswith. split.
  - intros [Hle Heq]%andb_prop.
    apply Nat.leb_le in Hle. apply String.eqb_eq in Heq.
    exists (substring 0 (String.length s - String.length suffix) s).
    pose proof (substring_split s (String.length s - String.length suffix)) as Hs.
    replace (String.length s - (String.length s - String.length suffix))
      with (String.length suffix) in Hs by lia.
    rewrite Heq in Hs. symmetry. apply Hs. lia.
  - intros [p ->]. rewrite length_append.
    apply andb_true_intro. split.
    + apply Nat.leb_le. lia.
    + replace (String.length p + String.length suffix - String.length suffix)
        with (String.length p) by lia.
      rewrite substring_append_right. apply String.eqb_refl.
Qed.

Lemma append_assoc (a b c : string) : (a +:+ b) +:+ c = a +:+ (b +:+ c).
Proof.
  induction a as [|x a IH]; [reflexivity|].
  now rewrite !append_cons, IH.
Qed.

(** Joining one more part. *)
Lemma str_join_snoc (sep : string) (parts : list string) (last : string) :
  parts <> [] -> str_join sep (parts ++ [last]) = str_join sep parts +:+ sep +:+ last.
Proof.
  induction parts as [|p [|q rest] IH]; intros Hne.
  - contradiction.
  - reflexivity.
  - change (str_join sep ((p :: q :: rest) ++ [last]))
      with (p +:+ sep +:+ str_join sep ((q :: rest) ++ [last])).
    rewrite IH by discriminate.
    change (str_join sep (p :: q :: rest)) with (p +:+ sep +:+ str_join sep (q :: rest)).
    now rewrite !append_assoc.
Qed.

End Strings.

(** ** Floats *)

Section Floats.

(** Comparing the other way round gives the opposite answer. *)
Lemma SFcompare_swap (x y : float) :
  SFcompare y x = CompOpp <$> SFcompare x y.
Proof.
  destruct x as [sx|sx| |sx mx ex], y as [sy|sy| |sy my ey]; simpl;
    try reflexivity; try (destruct sx; reflexivity);
    try (destruct sy; reflexivity);
    try (destruct sx, sy; reflexivity).
  destruct sx, sy; simpl; try reflexivity;
    rewrite (Z.compare_antisym ex ey);
    destruct (ex ?= ey)%Z; simpl; try reflexivity;
    rewrite (Pos.compare_cont_antisym mx my Eq
             : CompOpp (PosDef.Pos.compare_cont Eq mx my)
               = PosDef.Pos.compare_cont Eq my mx);
    reflexivity.
Qed.

(** [x < y] and [x > y] never hold together. *)
Lemma float_lt_not_gt (x y : float) : float_lt x y = true -> float_gt x y = false.
Proof.
  unfold float_lt, float_gt, SFltb. rewrite (SFcompare_swap x y).
  destruct (SFcompare x y) as [[| |]|]; simpl; congruence.
Qed.

End Floats.

(** ** Paths *)

Section Paths.
Context `{host}.

Lemma commonprefix_extends (p b : list string) : commonprefix p (p ++ b) = p.
Proof.
  induction p as [|x p IH]; simpl.
  - destruct b; reflexivity.
  - rewrite String.eqb_refl, IH. reflexivity.
Qed.

(** The relative path of a directory below [start]: the names descended
    through, joined by the separator, and [curdir] for [start] itself. *)
Lemma relpath_parts_below (start names : list string) :
  relpath_parts (start ++ names) start =
    match names with
    | [] => "."
    | _ :: _ => str_join sep names
    end.
Proof.
  unfold relpath_parts. rewrite commonprefix_extends, Nat.sub_diag.
  simpl. rewrite drop_app_length. reflexivity.
Qed.

Lemma relpath_item (item : walk_item) (top : string) :
  relpath item top =
    match below item with
    | [] => "."
    | _ :: _ => str_join sep (below item)
    end.
Proof. apply relpath_parts_below. Qed.

(** Induction on a directory entry, with the hypothesis for every child of
    a directory. *)
Lemma entry_children_ind (P : entry -> Prop)
  (hf : forall n, P (File n))
  (hd : forall n children, Forall P children -> P (Dir n children))
  (hu : forall n, P (Dir_unvisited n)) :
  forall e, P e.
Proof.
  fix ind 1. intros [n|n children|n].
  - apply hf.
  - apply hd. induction children as [|c children IH]; constructor.
    + apply ind.
    + exact IH.
  - apply hu.
Qed.

(** The items of a walk, their strings and the names they stand for. *)
Lemma walk_entry_directory (e : entry) (top : string) (names : list string)
  (item : walk_item) :
  item ∈ walk_entry top names e ->
  exists more, more <> [] /\ below item = names ++ more
               /\ directory item = foldl path_join top more.
Proof.
  revert top names.
  induction e as [n|n children IH|n] using entry_children_ind;
    intros top names Hin; simpl in Hin.
  - inversion Hin.
  - apply elem_of_cons in Hin as [-> | Hin].
    + exists [n]. simpl. split; [discriminate | split; reflexivity].
    + apply list_elem_of_In, in_flat_map in Hin as (c & Hc & Hin).
      apply list_elem_of_In in Hc, Hin.
      rewrite Forall_forall in IH.
      destruct (IH c Hc _ _ Hin) as (more & Hne & Hb & Hd).
      exists (n :: more). split; [discriminate | split].
      * rewrite Hb, <- app_assoc. reflexivity.
      * exact Hd.
  - inversion Hin.
Qed.

(** The first item of a walk is the top itself; every other item lies
    below it. *)
Lemma walk_items (top : string) (item : walk_item) :
  item ∈ walk top ->
  (below item = [] /\ directory item = top /\ head (walk top) = Some item)
  \/ (exists more, more <> [] /\ below item = more
                   /\ directory item = foldl path_join top more).
Proof.
  unfold walk. destruct (scandir_tree top) as [es|]; [|inversion 1].
  intros [-> | Hin]%elem_of_cons.
  - left. split; [reflexivity | split; reflexivity].
  - right. apply list_elem_of_In, in_flat_map in Hin as (c & Hc & Hin).
    apply list_elem_of_In in Hin.
    destruct (walk_entry_directory _ _ _ _ Hin) as (more & Hne & Hb & Hd).
    exists more. split; [assumption | split; assumption].
Qed.

End Paths.

(** ** The classifier *)

Section Classifier.
Context `{host} `{lib}.

(** Of the four extensions the test names, only the first is tested. *)
Lemma passes_filter_JPG (f : string) : passes_filter f = endswith f ".JPG".
Proof. reflexivity. Qed.

Lemma passes_filter_spec (f : string) :
  passes_filter f = true <-> exists stem, f = stem +:+ ".JPG".
Proof. rewrite passes_filter_JPG. apply endswith_spec. Qed.

Lemma rows_pd_DataFrame (data : list row) : rows (pd_DataFrame data) = data.
Proof. destruct data; reflexivity. Qed.

(** Visiting a file adds to the end of the list, whatever the list holds. *)
Lemma visit_file_appends (d rel f : string) (data : list row) :
  visit_file d rel f data =
    match visit_file d rel f [] with
    | Ok new => Ok (data ++ new)
    | Raise e => Raise e
    end.
Proof.
  unfold visit_file. destruct (passes_filter f).
  - destruct (imread (d +:+ "/" +:+ f)) as [m|]; simpl; [|reflexivity].
    destruct (float_lt _ five); [reflexivity|].
    destruct (float_gt _ five); [reflexivity|].
    now rewrite app_nil_r.
  - now rewrite app_nil_r.
Qed.

(** The only way a visit raises. *)
Lemma visit_file_raises (d rel f : string) (data : list row) (e : exn) :
  visit_file d rel f data = Raise e ->
  e = cv2_error /\ passes_filter f = true /\ imread (d +:+ "/" +:+ f) = None.
Proof.
  unfold visit_file. destruct (passes_filter f); [|discriminate].
  destruct (imread (d +:+ "/" +:+ f)) as [m|]; simpl.
  - destruct (float_lt _ five); [discriminate|].
    destruct (float_gt _ five); discriminate.
  - intros [= <-]. auto.
Qed.

Lemma visit_file_undecodable (d rel f : string) (data : list row) :
  passes_filter f = true -> imread (d +:+ "/" +:+ f) = None ->
  visit_file d rel f data = Raise cv2_error.
Proof. unfold visit_file. intros -> ->. reflexivity. Qed.

(** What the row of a file looks like, when there is one. *)
Lemma emitted_row (root : string) (item : walk_item) (f : string) (r : row) :
  r ∈ emitted root item f ->
  exists m,
    passes_filter f = true
    /\ imread (directory item +:+ "/" +:+ f) = Some m
    /\ r = Row (relpath item root +:+ "/" +:+ f)
             (mean (plane1 (BGR2HSV m))) (mean (plane2 (BGR2HSV m)))
             (float_lt (mean (plane1 (BGR2HSV m))) five)
    /\ (float_lt (mean (plane1 (BGR2HSV m))) five = true
        \/ float_gt (mean (plane1 (BGR2HSV m))) five = true).
Proof.
  unfold emitted, visit_file. destruct (passes_filter f); [|inversion 1].
  destruct (imread (directory item +:+ "/" +:+ f)) as [m|]; simpl; [|inversion 1].
  destruct (float_lt _ five) eqn:Hlt.
  - intros ->%list_elem_of_singleton. exists m. rewrite Hlt. auto.
  - destruct (float_gt _ five) eqn:Hgt; [|inversion 1].
    intros ->%list_elem_of_singleton. exists m. rewrite Hlt. auto.
Qed.

Lemma emitted_at_most_one (root : string) (item : walk_item) (f : string) :
  length (emitted root item f) <= 1.
Proof.
  unfold emitted, visit_file. destruct (passes_filter f); [|simpl; lia].
  destruct (imread _) as [m|]; simpl; [|lia].
  destruct (float_lt _ five); [simpl; lia|].
  destruct (float_gt _ five); simpl; lia.
Qed.

(** The inner loop adds the rows of its files, in their order. *)
Lemma visit_files_rows (root : string) (item : walk_item) (fs : list string)
  (data data' : list row) :
  visit_files (directory item) (relpath item root) fs data = Ok data' ->
  data' = data ++ flat_map (emitted root item) fs.
Proof.
  revert data. induction fs as [|f fs IH]; intros data; simpl.
  - intros [= <-]. now rewrite app_nil_r.
  - rewrite visit_file_appends. unfold emitted at 1.
    destruct (visit_file _ _ f []) as [new|e]; simpl; [|discriminate].
    intros Hrest%IH. now rewrite Hrest, app_assoc.
Qed.

(** The outer loop adds the rows of its items, in their order. *)
Lemma visit_items_rows (root : string) (items : list walk_item)
  (data data' : list row) :
  visit_items root items data = Ok data' ->
  data' = data ++ flat_map (fun item => flat_map (emitted root item) (files item)) items.
Proof.
  revert data. induction items as [|item items IH]; intros data; simpl.
  - intros [= <-]. now rewrite app_nil_r.
  - destruct (visit_files _ _ (files item) data) as [mid|e] eqn:Hmid;
      simpl; [|discriminate].
    apply visit_files_rows in Hmid. intros Hrest%IH.
    now rewrite Hrest, Hmid, app_assoc.
Qed.

Lemma check_ToD_rows (root : string) (df : DataFrame) :
  check_ToD root = Ok df ->
  rows df = flat_map (fun item => flat_map (emitted root item) (files item)) (walk root).
Proof.
  unfold check_ToD.
  destruct (visit_items root (walk root) []) as [data|e] eqn:Hdata;
    simpl; [|discriminate].
  intros [= <-]. rewrite rows_pd_DataFrame.
  now apply visit_items_rows in Hdata.
Qed.

(** Every row of the result is the row of a file of the walk. *)
Lemma check_ToD_row_origin (root : string) (df : DataFrame) (r : row) :
  check_ToD root = Ok df -> r ∈ rows df ->
  exists item f, item ∈ walk root /\ f ∈ files item /\ r ∈ emitted root item f.
Proof.
  intros ->%check_ToD_rows.
  intros (item & Hitem & (f & Hf & Hr)%in_flat_map)%list_elem_of_In%in_flat_map.
  exists item, f. now rewrite !list_elem_of_In.
Qed.

(** The loops raise nothing but the decoder's fault. *)
Lemma visit_files_raises (d rel : string) (fs : list string) (data : list row)
  (e : exn) :
  visit_files d rel fs data = Raise e -> e = cv2_error.
Proof.
  revert data. induction fs as [|f fs IH]; intros data; simpl; [discriminate|].
  destruct (visit_file d rel f data) as [data'|e'] eqn:Hf; simpl.
  - apply IH.
  - intros [= <-]. now apply visit_file_raises in Hf.
Qed.

Lemma visit_files_undecodable (d rel : string) (fs : list string)
  (data : list row) (f : string) :
  f ∈ fs -> passes_filter f = true -> imread (d +:+ "/" +:+ f) = None ->
  visit_files d rel fs data = Raise cv2_error.
Proof.
  intros Hin Hpass Hnone. revert data.
  induction Hin as [f fs|f g fs Hin IH]; intros data; simpl.
  - now rewrite visit_file_undecodable.
  - destruct (visit_file d rel g data) as [data'|e] eqn:Hg; simpl.
    + now apply IH.
    + now apply visit_file_raises in Hg as [-> _].
Qed.

Lemma visit_items_undecodable (root : string) (items : list walk_item)
  (data : list row) (item : walk_item) (f : string) :
  item ∈ items -> f ∈ files item -> passes_filter f = true ->
  imread (directory item +:+ "/" +:+ f) = None ->
  visit_items root items data = Raise cv2_error.
Proof.
  intros Hin Hf Hpass Hnone. revert data.
  induction Hin as [item items|item other items Hin IH]; intros data; simpl.
  - now rewrite (visit_files_undecodable _ _ _ _ f).
  - destruct (visit_files _ _ (files other) data) as [data'|e] eqn:Ho; simpl.
    + now apply IH.
    + now apply visit_files_raises in Ho as ->.
Qed.

(** Without a file that passes the test nothing is decoded and nothing is
    added. *)
Lemma visit_files_no_candidate (d rel : string) (fs : list string)
  (data : list row) :
  (forall f, f ∈ fs -> passes_filter f = false) ->
  visit_files d rel fs data = Ok data.
Proof.
  induction fs as [|f fs IH]; intros Hnone; simpl; [reflexivity|].
  unfold visit_file. rewrite (Hnone f) by left. simpl.
  apply IH. intros g Hg. apply Hnone. now right.
Qed.

Lemma visit_items_no_candidate (root : string) (items : list walk_item)
  (data : list row) :
  (forall item f, item ∈ items -> f ∈ files item -> passes_filter f = false) ->
  visit_items root items data = Ok data.
Proof.
  induction items as [|item items IH]; intros Hnone; simpl; [reflexivity|].
  rewrite visit_files_no_candidate by (intros f Hf; apply (Hnone item); [left | exact Hf]).
  simpl. apply IH. intros other f Ho. apply Hnone. now right.
Qed.

(** An image whose mean saturation is exactly 5.0 takes neither branch. *)
Lemma visit_file_boundary (d rel f : string) (data : list row) (m : Mat) :
  passes_filter f = true -> imread (d +:+ "/" +:+ f) = Some m ->
  mean (plane1 (BGR2HSV m)) = five ->
  visit_file d rel f data = Ok data.
Proof. unfold visit_file. intros -> -> Hmean. simpl. rewrite Hmean. reflexivity. Qed.

End Classifier.

(** ** Two runs *)

Section TwoRuns.

(** A visit looks at the decoder for the path of its file only, and only
    when the name passes the test. *)
Lemma visit_file_ext (l1 l2 : lib) (d rel f : string) (data : list row) :
  (passes_filter f = true ->
   @BGR2HSV l1 <$> @imread l1 (d +:+ "/" +:+ f)
   = @BGR2HSV l2 <$> @imread l2 (d +:+ "/" +:+ f)) ->
  @visit_file l1 d rel f data = @visit_file l2 d rel f data.
Proof.
  unfold visit_file. destruct (passes_filter f); [|reflexivity].
  intros Hsame. specialize (Hsame eq_refl).
  destruct (@imread l1 _) as [m1|], (@imread l2 _) as [m2|];
    simpl in *; try discriminate; [|reflexivity].
  injection Hsame as ->. reflexivity.
Qed.

Lemma visit_files_ext (l1 l2 : lib) (d rel : string) (fs : list string)
  (data : list row) :
  (forall f, f ∈ fs -> passes_filter f = true ->
     @BGR2HSV l1 <$> @imread l1 (d +:+ "/" +:+ f)
     = @BGR2HSV l2 <$> @imread l2 (d +:+ "/" +:+ f)) ->
  @visit_files l1 d rel fs data = @visit_files l2 d rel fs data.
Proof.
  revert data. induction fs as [|f fs IH]; intros data Hsame; simpl; [reflexivity|].
  rewrite (visit_file_ext l1 l2) by (apply Hsame; left).
  destruct (@visit_file l2 d rel f data) as [data'|e]; simpl; [|reflexivity].
  apply IH. intros g Hg. apply Hsame. now right.
Qed.

Lemma visit_items_ext (h1 h2 : host) (l1 l2 : lib) (root : string)
  (items : list walk_item) (data : list row) :
  @sep h1 = @sep h2 ->
  (forall item f, item ∈ items -> f ∈ files item -> passes_filter f = true ->
     @BGR2HSV l1 <$> @imread l1 (directory item +:+ "/" +:+ f)
     = @BGR2HSV l2 <$> @imread l2 (directory item +:+ "/" +:+ f)) ->
  @visit_items h1 l1 root items data = @visit_items h2 l2 root items data.
Proof.
  intros Hsep. revert data.
  induction items as [|item items IH]; intros data Hsame; simpl; [reflexivity|].
  rewrite !relpath_item, Hsep.
  rewrite (visit_files_ext l1 l2) by (intros f Hf; apply Hsame; [left | exact Hf]).
  destruct (@visit_files l2 _ _ (files item) data) as [data'|e]; simpl; [|reflexivity].
  apply IH. intros other f Ho. apply Hsame. now right.
Qed.

End TwoRuns.

(** ** The driver *)

Section Driver.
Context `{host} `{lib} `{runtime}.

(** With the two positional arguments and an existing directory, [main]
    stops at the attribute the parser never defined: nothing was printed,
    nothing classified, nothing written. *)
Lemma main_raises_AttributeError (d s : string) (w : world) :
  dashed d = false -> dashed s = false -> path_exists d = true ->
  main [d; s] w = (Raise (AttributeError "output_directory"), w).
Proof.
  intros Hd Hs Hex. unfold main, io_bind, lift, io_ret, parse_args, getattr.
  simpl. rewrite Hd, Hs. simpl.
  rewrite lookup_insert_ne, lookup_insert_eq by discriminate.
  rewrite Hex.
  rewrite !lookup_insert_ne, lookup_empty by discriminate.
  reflexivity.
Qed.

(** With a directory that does not exist, the assertion fails first. *)
Lemma main_missing_directory (d s : string) (w : world) :
  dashed d = false -> dashed s = false -> path_exists d = false ->
  main [d; s] w
  = (Raise (AssertionError ("Image directory " +:+ d +:+ " does not exist")), w).
Proof.
  intros Hd Hs Hex. unfold main, io_bind, lift, io_ret, parse_args, getattr.
  simpl. rewrite Hd, Hs. simpl.
  rewrite lookup_insert_ne, lookup_insert_eq by discriminate.
  rewrite Hex. reflexivity.
Qed.

End Driver.

(** ** The night flag *)

(** C1.  In every row of the frame the classifier returns, [Night] is the
    outcome of the test [saturation < 5.0] on the saturation stored in that
    row: a row whose saturation is below 5.0 has [Night] true, and a row
    whose saturation is above 5.0 has [Night] false. *)
Theorem C1_night_is_saturation_below_five `{host} `{lib}
  (image_directory : string) (df : DataFrame) (r : row) :
  check_ToD image_directory = Ok df ->
  r ∈ rows df ->
  Night r = float_lt (saturation r) five
  /\ (float_lt (saturation r) five = true -> Night r = true)
  /\ (float_gt (saturation r) five = true -> Night r = false).
Proof.
  intros Hdf Hr.
  destruct (check_ToD_row_origin _ _ _ Hdf Hr) as (item & f & _ & _ & Hem).
  apply emitted_row in Hem as (m & _ & _ & -> & _). simpl.
  split; [reflexivity|]. split; [tauto|].
  intros Hgt. destruct (float_lt _ five) eqn:Hlt; [|reflexivity].
  apply float_lt_not_gt in Hlt. congruence.
Qed.

Lemma C1_night_is_saturation_below_five_witness :
  let df := Frame ["filename"; "saturation"; "value"; "Night"]
              [Row "./IMG_0001.JPG" (S754_finite false 4503599627370496 (-53))
                   (S754_finite false 5981343255101440 (-46)) true;
               Row "sub/a.JPG" (S754_finite false 6685030696878080 (-45))
                   (S754_finite false 6157265115545600 (-45)) false;
               Row "sub/deep/a.JPG" (S754_finite false 6685030696878080 (-45))
                   (S754_finite false 6157265115545600 (-45)) false] in
  let r := Row "sub/a.JPG" (S754_finite false 6685030696878080 (-45))
               (S754_finite false 6157265115545600 (-45)) false in
  check_ToD (H := Sample.posix) (H0 := Sample.stored) "CT_Images" = Ok df
  /\ r ∈ rows df
  /\ Night r = float_lt (saturation r) five
  /\ (float_lt (saturation r) five = true -> Night r = true)
  /\ (float_gt (saturation r) five = true -> Night r = false).
Proof.
  intros df r.
  assert (Hrun : check_ToD (H := Sample.posix) (H0 := Sample.stored) "CT_Images" = Ok df)
    by (vm_compute; reflexivity).
  assert (Hin : r ∈ rows df) by (right; left).
  split; [exact Hrun|]. split; [exact Hin|].
  exact (C1_night_is_saturation_below_five "CT_Images" df r Hrun Hin).
Defined.

(** ** The test on the file name *)

(** C2.  The test accepts the names that end in [.JPG] and no other.  A file
    named photo.jpeg is rejected, and a directory holding a decodable
    photo.jpeg gives an empty frame; photo.jpg and photo.JPEG are rejected
    too.  The names photo.PNG and photo.JPG.bak are rejected, photo.JPG is
    accepted. *)
Theorem C2_lowercase_jpeg_is_filtered_out :
  (forall f, passes_filter f = true <-> exists stem, f = stem +:+ ".JPG")
  /\ passes_filter "photo.jpeg" = false
  /\ passes_filter "photo.jpg" = false
  /\ passes_filter "photo.JPEG" = false
  /\ passes_filter "photo.JPG" = true
  /\ passes_filter "photo.PNG" = false
  /\ passes_filter "photo.JPG.bak" = false
  /\ Sample.decode "CT_Lower/photo.jpeg" = Some Sample.vivid
  /\ check_ToD (H := Sample.posix) (H0 := Sample.stored) "CT_Lower" = Ok (Frame [] []).
Proof.
  split; [exact passes_filter_spec|].
  repeat split; vm_compute; reflexivity.
Qed.

(** ** The boundary *)

(** C3.  An image that passes the test on its name, decodes, and has mean
    saturation exactly 5.0 takes neither branch: visiting it returns the list
    unchanged.  A directory whose only image is such an image gives a frame
    without a row for it. *)
Theorem C3_boundary_image_is_dropped :
  (forall (l : lib) (d rel f : string) (data : list row) (m : @Mat l),
     passes_filter f = true ->
     @imread l (d +:+ "/" +:+ f) = Some m ->
     mean (plane1 (@BGR2HSV l m)) = five ->
     @visit_file l d rel f data = Ok data)
  /\ passes_filter "b.JPG" = true
  /\ (mean ∘ plane1 <$> Sample.decode "CT_Edge/b.JPG") = Some five
  /\ check_ToD (H := Sample.posix) (H0 := Sample.stored) "CT_Edge" = Ok (Frame [] []).
Proof.
  split; [intros l d rel f data m; apply visit_file_boundary|].
  repeat split; vm_compute; reflexivity.
Qed.

(** ** Files that do not decode *)

(** C4.  When a file of the walk passes the test on its name and [imread]
    gives [None] for it, [check_ToD] ends with the fault [cv2.cvtColor]
    raises: no frame is returned, whatever had been collected before. *)
Theorem C4_undecodable_file_aborts `{host} `{lib}
  (image_directory : string) (item : walk_item) (f : string) :
  item ∈ walk image_directory ->
  f ∈ files item ->
  passes_filter f = true ->
  imread (directory item +:+ "/" +:+ f) = None ->
  check_ToD image_directory = Raise cv2_error.
Proof.
  intros Hitem Hf Hpass Hnone. unfold check_ToD.
  now rewrite (visit_items_undecodable _ _ _ item f).
Qed.

Lemma C4_undecodable_file_aborts_witness :
  let item := WalkItem "CT_Broken" [] [] ["a.JPG"; "corrupt.JPG"; "IMG_0001.JPG"] in
  item ∈ walk (H := Sample.posix) "CT_Broken"
  /\ "corrupt.JPG" ∈ files item
  /\ passes_filter "corrupt.JPG" = true
  /\ Sample.decode (directory item +:+ "/" +:+ "corrupt.JPG") = None
  /\ check_ToD (H := Sample.posix) (H0 := Sample.stored) "CT_Broken" = Raise cv2_error.
Proof.
  intros item.
  assert (Hitem : item ∈ walk (H := Sample.posix) "CT_Broken") by left.
  assert (Hf : "corrupt.JPG" ∈ files item) by (right; left).
  assert (Hpass : passes_filter "corrupt.JPG" = true) by reflexivity.
  assert (Hnone : Sample.decode (directory item +:+ "/" +:+ "corrupt.JPG") = None)
    by reflexivity.
  repeat (split; [assumption|]).
  exact (C4_undecodable_file_aborts (H := Sample.posix) (H0 := Sample.stored)
           "CT_Broken" item "corrupt.JPG" Hitem Hf Hpass Hnone).
Defined.

(** ** File names in the rows *)

(** C5, with the separator of the host.  A directory of the walk below the
    scanned one is the scanned one joined with the names descended through,
    and the row of a file in it is named by those names, joined by the
    separator of the host, then a forward slash, then the name of the file.
    Where the separator of the host is the forward slash this is the
    relative path written with forward slashes; for a file one directory
    below the scanned one it is [sub/a.JPG] on every host. *)
Theorem C5_filename_below_the_root `{host} `{lib}
  (image_directory : string) (item : walk_item) (f : string) (r : row) :
  item ∈ walk image_directory ->
  below item <> [] ->
  f ∈ files item ->
  r ∈ emitted image_directory item f ->
  directory item = foldl path_join image_directory (below item)
  /\ filename r = str_join sep (below item) +:+ "/" +:+ f
  /\ (sep = "/" -> filename r = str_join "/" (below item ++ [f]))
  /\ (forall d, below item = [d] -> filename r = d +:+ "/" +:+ f).
Proof.
  intros Hitem Hbelow _ Hem. split.
  { destruct (walk_items _ _ Hitem) as [(Hb & _) | (more & _ & <- & Hd)];
      [contradiction | exact Hd]. }
  apply emitted_row in Hem as (m & _ & _ & -> & _). simpl.
  rewrite relpath_item.
  destruct (below item) as [|d rest] eqn:Hb; [contradiction|].
  split; [reflexivity|]. split.
  - intros ->. now rewrite str_join_snoc.
  - intros d' [= -> ->]. reflexivity.
Qed.

Lemma C5_filename_below_the_root_witness :
  let item := WalkItem "CT_Images/sub/deep" ["sub"; "deep"] [] ["b.JPG"; "a.JPG"] in
  let r := Row "sub/deep/a.JPG" (S754_finite false 6685030696878080 (-45))
               (S754_finite false 6157265115545600 (-45)) false in
  item ∈ walk (H := Sample.posix) "CT_Images"
  /\ below item <> []
  /\ "a.JPG" ∈ files item
  /\ r ∈ emitted (H := Sample.posix) (H0 := Sample.stored) "CT_Images" item "a.JPG"
  /\ filename r = "sub/deep/a.JPG".
Proof.
  intros item r.
  assert (Hitem : item ∈ walk (H := Sample.posix) "CT_Images") by (right; right; left).
  assert (Hbelow : below item <> []) by discriminate.
  assert (Hf : "a.JPG" ∈ files item) by (right; left).
  assert (Hem : r ∈ emitted (H := Sample.posix) (H0 := Sample.stored)
                      "CT_Images" item "a.JPG") by left.
  repeat (split; [assumption|]).
  exact (proj1 (proj2 (proj2 (C5_filename_below_the_root (H := Sample.posix)
                                (H0 := Sample.stored) "CT_Images" item "a.JPG" r
                                Hitem Hbelow Hf Hem))) eq_refl).
Defined.

(** C5 with forward slashes throughout does not hold where the separator of
    the host is not the forward slash: on the Windows host the image two
    directories below the scanned one is recorded with a backslash between
    the directories. *)
Lemma C5_backslash_on_windows :
  let item := WalkItem "CT_Images\sub\deep" ["sub"; "deep"] [] ["b.JPG"; "a.JPG"] in
  let r := Row "sub\deep/a.JPG" (S754_finite false 6685030696878080 (-45))
               (S754_finite false 6157265115545600 (-45)) false in
  item ∈ walk (H := Sample.windows) "CT_Images"
  /\ "a.JPG" ∈ files item
  /\ r ∈ emitted (H := Sample.windows) (H0 := Sample.stored) "CT_Images" item "a.JPG"
  /\ (exists df, check_ToD (H := Sample.windows) (H0 := Sample.stored) "CT_Images" = Ok df
                 /\ r ∈ rows df)
  /\ filename r <> str_join "/" (below item ++ ["a.JPG"]).
Proof.
  intros item r. split; [right; right; left|]. split; [right; left|].
  split; [left|]. split; [|discriminate].
  eexists. split; [vm_compute; reflexivity|]. right; right; left.
Qed.

(** C10.  The row of a file that lies in the scanned directory itself (the
    first item of the walk) is named [./] followed by the name of the file:
    the relative path of the scanned directory to itself is [.]. *)
Theorem C10_filename_in_the_root `{host} `{lib}
  (image_directory : string) (item : walk_item) (f : string) (r : row) :
  head (walk image_directory) = Some item ->
  f ∈ files item ->
  r ∈ emitted image_directory item f ->
  directory item = image_directory /\ filename r = "./" +:+ f.
Proof.
  intros Hhead _ Hem.
  assert (Hroot : below item = [] /\ directory item = image_directory).
  { unfold walk in Hhead. destruct (scandir_tree image_directory); [|discriminate].
    injection Hhead as <-. auto. }
  destruct Hroot as [Hb Hd]. split; [exact Hd|].
  apply emitted_row in Hem as (m & _ & _ & -> & _). simpl.
  rewrite relpath_item, Hb. reflexivity.
Qed.

Lemma C10_filename_in_the_root_witness :
  let item := WalkItem "CT_Images" [] ["sub"; "link"]
                ["IMG_0001.JPG"; "notes.txt"; "photo.jpeg"] in
  let r := Row "./IMG_0001.JPG" (S754_finite false 4503599627370496 (-53))
               (S754_finite false 5981343255101440 (-46)) true in
  head (walk (H := Sample.windows) "CT_Images") = Some item
  /\ "IMG_0001.JPG" ∈ files item
  /\ r ∈ emitted (H := Sample.windows) (H0 := Sample.stored) "CT_Images" item "IMG_0001.JPG"
  /\ directory item = "CT_Images" /\ filename r = "./IMG_0001.JPG".
Proof.
  intros item r.
  assert (Hhead : head (walk (H := Sample.windows) "CT_Images") = Some item)
    by reflexivity.
  assert (Hf : "IMG_0001.JPG" ∈ files item) by left.
  assert (Hem : r ∈ emitted (H := Sample.windows) (H0 := Sample.stored)
                      "CT_Images" item "IMG_0001.JPG") by left.
  repeat (split; [assumption|]).
  exact (C10_filename_in_the_root (H := Sample.windows) (H0 := Sample.stored)
           "CT_Images" item "IMG_0001.JPG" r Hhead Hf Hem).
Defined.

(** ** Order and growth of the collection *)

(** C7.  The rows of the frame are the rows of the files of the walk, item
    after item and, within an item, file after file; a file gives at most one
    row; visiting a file leaves the rows collected so far in place, as a
    prefix of the list it returns, with the row of the file after them; and
    so does the loop over any stretch of the walk. *)
Theorem C7_rows_in_traversal_order `{host} `{lib}
  (image_directory : string) (df : DataFrame) :
  check_ToD image_directory = Ok df ->
  rows df = flat_map (fun item => flat_map (emitted image_directory item) (files item))
              (walk image_directory)
  /\ (forall item f, length (emitted image_directory item f) <= 1)
  /\ (forall item f data data',
        visit_file (directory item) (relpath item image_directory) f data = Ok data' ->
        data' = data ++ emitted image_directory item f /\ data `prefix_of` data')
  /\ (forall items data data',
        visit_items image_directory items data = Ok data' -> data `prefix_of` data').
Proof.
  intros Hdf. split; [now apply check_ToD_rows|].
  split; [intros; apply emitted_at_most_one|]. split.
  - intros item f data data' Hvisit.
    rewrite visit_file_appends in Hvisit. unfold emitted.
    destruct (visit_file _ _ f []) as [new|e]; [|discriminate].
    injection Hvisit as <-. split; [reflexivity|]. now exists new.
  - intros items data data' ->%visit_items_rows. now eexists.
Qed.

Lemma C7_rows_in_traversal_order_witness :
  exists df,
    check_ToD (H := Sample.posix) (H0 := Sample.stored) "CT_Images" = Ok df
    /\ filename <$> rows df = ["./IMG_0001.JPG"; "sub/a.JPG"; "sub/deep/a.JPG"]
    /\ rows df = flat_map (fun item => flat_map
                             (emitted (H := Sample.posix) (H0 := Sample.stored)
                                "CT_Images" item) (files item))
                   (walk (H := Sample.posix) "CT_Images").
Proof.
  eexists. split; [vm_compute; reflexivity|]. split; [reflexivity|].
  refine (proj1 (C7_rows_in_traversal_order (H := Sample.posix)
                   (H0 := Sample.stored) "CT_Images" _ _)).
  vm_compute. reflexivity.
Defined.

(** ** Determinism *)

(** C8.  Two runs that see the same walk of the scanned directory, the same
    separator and, for every file of the walk that passes the test on its
    name, the same decoded and converted image, end alike: with the same
    frame, or with the same fault.  What the hosts and the decoders do
    elsewhere does not matter. *)
Theorem C8_same_tree_same_frame (h1 h2 : host) (l1 l2 : lib)
  (image_directory : string) :
  @walk h1 image_directory = @walk h2 image_directory ->
  @sep h1 = @sep h2 ->
  (forall item f,
     item ∈ @walk h1 image_directory -> f ∈ files item -> passes_filter f = true ->
     @BGR2HSV l1 <$> @imread l1 (directory item +:+ "/" +:+ f)
     = @BGR2HSV l2 <$> @imread l2 (directory item +:+ "/" +:+ f)) ->
  @check_ToD h1 l1 image_directory = @check_ToD h2 l2 image_directory.
Proof.
  intros Hwalk Hsep Hsame. unfold check_ToD. rewrite <- Hwalk.
  now rewrite (visit_items_ext h1 h2 l1 l2).
Qed.

Lemma C8_same_tree_same_frame_witness :
  @walk Sample.posix "CT_Images" = @walk Sample.elsewhere "CT_Images"
  /\ @sep Sample.posix = @sep Sample.elsewhere
  /\ @imread Sample.stored "CT_Images/notes.txt" <> @imread Sample.stored' "CT_Images/notes.txt"
  /\ @check_ToD Sample.posix Sample.stored "CT_Images"
     = @check_ToD Sample.elsewhere Sample.stored' "CT_Images".
Proof.
  split; [reflexivity|]. split; [reflexivity|]. split; [discriminate|].
  apply (C8_same_tree_same_frame Sample.posix Sample.elsewhere Sample.stored Sample.stored');
    [reflexivity | reflexivity |].
  intros item f Hitem Hf Hpass.
  members Hitem; members Hf; try discriminate Hpass; reflexivity.
Defined.

(** ** Nothing to classify *)

(** C9, for the classifier.  When no file of the walk passes the test on its
    name, the classifier does not raise and returns the empty frame: no rows
    and no columns. *)
Theorem C9_no_candidate_gives_the_empty_frame `{host} `{lib}
  (image_directory : string) :
  (forall item f,
     item ∈ walk image_directory -> f ∈ files item -> passes_filter f = false) ->
  check_ToD image_directory = Ok (Frame [] []).
Proof.
  intros Hnone. unfold check_ToD.
  now rewrite visit_items_no_candidate.
Qed.

Lemma C9_no_candidate_gives_the_empty_frame_witness :
  (forall item f,
     item ∈ walk (H := Sample.posix) "CT_Empty" -> f ∈ files item ->
     passes_filter f = false)
  /\ check_ToD (H := Sample.posix) (H0 := Sample.stored) "CT_Empty" = Ok (Frame [] []).
Proof.
  assert (Hnone : forall item f,
             item ∈ walk (H := Sample.posix) "CT_Empty" -> f ∈ files item ->
             passes_filter f = false).
  { intros item f Hitem Hf. members Hitem; members Hf; reflexivity. }
  split; [exact Hnone|].
  exact (C9_no_candidate_gives_the_empty_frame (H := Sample.posix)
           (H0 := Sample.stored) "CT_Empty" Hnone).
Defined.

(** C9 for the whole run does not hold on a directory without images: the
    run ends with an exception before anything is printed or written, so
    there is no run that ends well, leaves a report and has logged a warning.
    The frame the classifier returns for that directory has no column to
    head a report with. *)
Lemma C9_no_report_and_no_warning :
  main (H := Sample.posix) (H0 := Sample.stored) (H1 := Sample.plain_runtime)
       ["CT_Empty"; "report"] Sample.fresh
  = (Raise (AttributeError "output_directory"), Sample.fresh)
  /\ ~ (exists w',
          main (H := Sample.posix) (H0 := Sample.stored) (H1 := Sample.plain_runtime)
               ["CT_Empty"; "report"] Sample.fresh = (Ok tt, w')
          /\ is_Some (written w' !! "report.csv")
          /\ exists line, line ∈ stdout w' /\ String.prefix "Warning" line = true)
  /\ (exists df, check_ToD (H := Sample.posix) (H0 := Sample.stored) "CT_Empty" = Ok df
                 /\ columns df = []).
Proof.
  split; [reflexivity|]. split; [|eexists; split; reflexivity].
  intros (w' & Hrun & _). discriminate Hrun.
Qed.

(** ** The command line *)

(** C6.  Called with the two positional arguments and an existing directory,
    [main] raises [AttributeError] at [args.output_directory], an attribute
    the parser does not define: nothing is printed, the classifier is not
    run and no file is written.  So it is for CT_Images and CT_Images_ToD. *)
Theorem C6_main_raises_before_classifying :
  (forall (h : host) (l : lib) (rt : runtime) (d s : string) (w : world),
     dashed d = false -> dashed s = false -> @path_exists h d = true ->
     @main h l rt [d; s] w = (Raise (AttributeError "output_directory"), w))
  /\ path_exists (host := Sample.posix) "CT_Images" = true
  /\ main (H := Sample.posix) (H0 := Sample.stored) (H1 := Sample.plain_runtime)
          ["CT_Images"; "CT_Images_ToD"] Sample.fresh
     = (Raise (AttributeError "output_directory"), Sample.fresh)
  /\ written Sample.fresh !! "CT_Images_ToD.csv" = None.
Proof.
  split; [intros h l rt d s w; apply main_raises_AttributeError|].
  repeat split.
Qed.

(** * Further properties *)

(** ** What the loops raise, and why *)

Section Faults.
Context `{host} `{lib}.




(** The row of a candidate that decodes and is off the boundary. *)
Lemma emitted_decoded (root : string) (item : walk_item) (f : string) (m : Mat) :
  passes_filter f = true ->
  imread (directory item +:+ "/" +:+ f) = Some m ->
  float_lt (mean (plane1 (BGR2HSV m))) five = true
  \/ float_gt (mean (plane1 (BGR2HSV m))) five = true ->
  emitted root item f
  = [Row (relpath item root +:+ "/" +:+ f)
         (mean (plane1 (BGR2HSV m))) (mean (plane2 (BGR2HSV m)))
         (float_lt (mean (plane1 (BGR2HSV m))) five)].
Proof.
  intros Hpass Hread Hoff. unfold emitted, visit_file.
  rewrite Hpass, Hread. simpl.
  destruct (float_lt _ five) eqn:Hlt; [reflexivity|].
  destruct Hoff as [Hoff | ->]; [discriminate | reflexivity].
Qed.

(** A file that fails the test on its name gives no row. *)
Lemma emitted_filtered_out (root : string) (item : walk_item) (f : string) :
  passes_filter f = false -> emitted root item f = [].
Proof. intros Hpass. unfold emitted, visit_file. now rewrite Hpass. Qed.

Lemma visit_files_candidates (d rel : string) (fs : list string) (data : list row) :
  visit_files d rel (List.filter passes_filter fs) data = visit_files d rel fs data.
Proof.
  revert data. induction fs as [|f fs IH]; intros data; simpl; [reflexivity|].
  destruct (passes_filter f) eqn:Hpass; simpl.
  - destruct (visit_file d rel f data); simpl; [apply IH | reflexivity].
  - unfold visit_file. rewrite Hpass. simpl. apply IH.
Qed.

End Faults.



(** ** What a row holds *)

(** X2.  Every row of the frame stands for a file of the walk that passes
    the test on its name and was decoded: its name is the relative path of
    the directory, a forward slash and the name of the file, its saturation
    and value are the means of the second and of the third channel of the
    converted image read from the directory, a forward slash and the name of
    the file. *)
Theorem row_is_read_from_its_file `{host} `{lib}
  (image_directory : string) (df : DataFrame) (r : row) :
  check_ToD image_directory = Ok df ->
  r ∈ rows df ->
  exists item f m,
    item ∈ walk image_directory /\ f ∈ files item /\ passes_filter f = true
    /\ imread (directory item +:+ "/" +:+ f) = Some m
    /\ filename r = relpath item image_directory +:+ "/" +:+ f
    /\ saturation r = mean (plane1 (BGR2HSV m))
    /\ value r = mean (plane2 (BGR2HSV m)).
Proof.
  intros Hdf Hr.
  destruct (check_ToD_row_origin _ _ _ Hdf Hr) as (item & f & Hitem & Hf & Hem).
  apply emitted_row in Hem as (m & Hpass & Hread & -> & _).
  exists item, f, m. simpl. auto 10.
Qed.

Lemma row_is_read_from_its_file_witness :
  let df := Frame ["filename"; "saturation"; "value"; "Night"]
              [Row "./IMG_0001.JPG" (S754_finite false 4503599627370496 (-53))
                   (S754_finite false 5981343255101440 (-46)) true;
               Row "sub/a.JPG" (S754_finite false 6685030696878080 (-45))
                   (S754_finite false 6157265115545600 (-45)) false;
               Row "sub/deep/a.JPG" (S754_finite false 6685030696878080 (-45))
                   (S754_finite false 6157265115545600 (-45)) false] in
  let r := Row "sub/deep/a.JPG" (S754_finite false 6685030696878080 (-45))
               (S754_finite false 6157265115545600 (-45)) false in
  check_ToD (H := Sample.posix) (H0 := Sample.stored) "CT_Images" = Ok df
  /\ r ∈ rows df
  /\ exists item f m,
       item ∈ walk (H := Sample.posix) "CT_Images" /\ f ∈ files item
       /\ passes_filter f = true
       /\ Sample.decode (directory item +:+ "/" +:+ f) = Some m
       /\ filename r = relpath (H := Sample.posix) item "CT_Images" +:+ "/" +:+ f
       /\ saturation r = mean (plane1 m)
       /\ value r = mean (plane2 m).
Proof.
  intros df r.
  assert (Hrun : check_ToD (H := Sample.posix) (H0 := Sample.stored) "CT_Images" = Ok df)
    by (vm_compute; reflexivity).
  assert (Hin : r ∈ rows df) by (right; right; left).
  split; [exact Hrun|]. split; [exact Hin|].
  exact (row_is_read_from_its_file (H := Sample.posix) (H0 := Sample.stored)
           "CT_Images" df r Hrun Hin).
Defined.

(** X3.  No decoded image off the boundary is left out.  When the
    classifier returns a frame, every file of the walk that passes the test
    on its name, decodes, and has a mean saturation below or above 5.0 has
    its row in the frame. *)
Theorem decoded_candidate_has_its_row `{host} `{lib}
  (image_directory : string) (df : DataFrame) (item : walk_item) (f : string)
  (m : Mat) :
  check_ToD image_directory = Ok df ->
  item ∈ walk image_directory ->
  f ∈ files item ->
  passes_filter f = true ->
  imread (directory item +:+ "/" +:+ f) = Some m ->
  float_lt (mean (plane1 (BGR2HSV m))) five = true
  \/ float_gt (mean (plane1 (BGR2HSV m))) five = true ->
  Row (relpath item image_directory +:+ "/" +:+ f)
      (mean (plane1 (BGR2HSV m))) (mean (plane2 (BGR2HSV m)))
      (float_lt (mean (plane1 (BGR2HSV m))) five) ∈ rows df.
Proof.
  intros ->%check_ToD_rows Hitem Hf Hpass Hread Hoff.
  apply list_elem_of_In, in_flat_map. exists item.
  split; [now apply list_elem_of_In|].
  apply in_flat_map. exists f. split; [now apply list_elem_of_In|].
  rewrite (emitted_decoded _ _ _ m) by assumption. now left.
Qed.

Lemma decoded_candidate_has_its_row_witness :
  exists df,
    check_ToD (H := Sample.posix) (H0 := Sample.stored) "CT_Images" = Ok df
    /\ Row "sub/a.JPG" (mean (plane1 Sample.vivid)) (mean (plane2 Sample.vivid)) false
       ∈ rows df.
Proof.
  eexists. split; [vm_compute; reflexivity|].
  refine (decoded_candidate_has_its_row (H := Sample.posix) (H0 := Sample.stored)
            "CT_Images" _ (WalkItem "CT_Images/sub" ["sub"] ["deep"] ["a.JPG"])
            "a.JPG" Sample.vivid _ _ _ _ _ _).
  - vm_compute. reflexivity.
  - right; left.
  - left.
  - reflexivity.
  - reflexivity.
  - right. vm_compute. reflexivity.
Defined.

(** X4.  The saturation of a row is never 5.0 and never a NaN: comparing it
    with 5.0 gives "less" in a row flagged as night and "greater" in a row
    flagged as day. *)
Theorem row_is_off_the_boundary `{host} `{lib}
  (image_directory : string) (df : DataFrame) (r : row) :
  check_ToD image_directory = Ok df ->
  r ∈ rows df ->
  SFcompare (saturation r) five = Some (if Night r then Lt else Gt).
Proof.
  intros Hdf Hr.
  destruct (check_ToD_row_origin _ _ _ Hdf Hr) as (item & f & _ & _ & Hem).
  apply emitted_row in Hem as (m & _ & _ & -> & Hoff). simpl.
  unfold float_lt, float_gt, SFltb in *.
  rewrite (SFcompare_swap (mean (plane1 (BGR2HSV m))) five) in Hoff.
  destruct (SFcompare (mean (plane1 (BGR2HSV m))) five) as [[| |]|];
    simpl in *; try reflexivity; destruct Hoff; discriminate.
Qed.

Lemma row_is_off_the_boundary_witness :
  let df := Frame ["filename"; "saturation"; "value"; "Night"]
              [Row "./IMG_0001.JPG" (S754_finite false 4503599627370496 (-53))
                   (S754_finite false 5981343255101440 (-46)) true;
               Row "sub/a.JPG" (S754_finite false 6685030696878080 (-45))
                   (S754_finite false 6157265115545600 (-45)) false;
               Row "sub/deep/a.JPG" (S754_finite false 6685030696878080 (-45))
                   (S754_finite false 6157265115545600 (-45)) false] in
  let r := Row "./IMG_0001.JPG" (S754_finite false 4503599627370496 (-53))
               (S754_finite false 5981343255101440 (-46)) true in
  check_ToD (H := Sample.posix) (H0 := Sample.stored) "CT_Images" = Ok df
  /\ r ∈ rows df
  /\ SFcompare (saturation r) five = Some Lt.
Proof.
  intros df r.
  assert (Hrun : check_ToD (H := Sample.posix) (H0 := Sample.stored) "CT_Images" = Ok df)
    by (vm_compute; reflexivity).
  assert (Hin : r ∈ rows df) by left.
  split; [exact Hrun|]. split; [exact Hin|].
  exact (row_is_off_the_boundary (H := Sample.posix) (H0 := Sample.stored)
           "CT_Images" df r Hrun Hin).
Defined.

(** X5.  Every name recorded in the frame ends in [.JPG]. *)
Theorem recorded_names_end_in_JPG `{host} `{lib}
  (image_directory : string) (df : DataFrame) (r : row) :
  check_ToD image_directory = Ok df ->
  r ∈ rows df ->
  endswith (filename r) ".JPG" = true.
Proof.
  intros Hdf Hr.
  destruct (check_ToD_row_origin _ _ _ Hdf Hr) as (item & f & _ & _ & Hem).
  apply emitted_row in Hem as (m & Hpass & _ & -> & _). simpl.
  apply passes_filter_spec in Hpass as [stem ->].
  apply endswith_spec. exists (relpath item image_directory +:+ "/" +:+ stem).
  now rewrite !append_assoc.
Qed.

Lemma recorded_names_end_in_JPG_witness :
  let df := Frame ["filename"; "saturation"; "value"; "Night"]
              [Row "./IMG_0001.JPG" (S754_finite false 4503599627370496 (-53))
                   (S754_finite false 5981343255101440 (-46)) true;
               Row "sub/a.JPG" (S754_finite false 6685030696878080 (-45))
                   (S754_finite false 6157265115545600 (-45)) false;
               Row "sub\deep/a.JPG" (S754_finite false 6685030696878080 (-45))
                   (S754_finite false 6157265115545600 (-45)) false] in
  let r := Row "sub\deep/a.JPG" (S754_finite false 6685030696878080 (-45))
               (S754_finite false 6157265115545600 (-45)) false in
  check_ToD (H := Sample.windows) (H0 := Sample.stored) "CT_Images" = Ok df
  /\ r ∈ rows df
  /\ endswith (filename r) ".JPG" = true.
Proof.
  intros df r.
  assert (Hrun : check_ToD (H := Sample.windows) (H0 := Sample.stored) "CT_Images"
                 = Ok df) by (vm_compute; reflexivity).
  assert (Hin : r ∈ rows df) by (right; right; left).
  split; [exact Hrun|]. split; [exact Hin|].
  exact (recorded_names_end_in_JPG (H := Sample.windows) (H0 := Sample.stored)
           "CT_Images" df r Hrun Hin).
Defined.

(** ** What the classifier passes over *)

Lemma visit_items_candidates (h1 h2 : host) (l : lib) (root : string)
  (items : list walk_item) (data : list row) :
  @sep h1 = @sep h2 ->
  @visit_items h2 l root (candidates_only <$> items) data
  = @visit_items h1 l root items data.
Proof.
  intros Hsep. revert data.
  induction items as [|item items IH]; intros data; [reflexivity|].
  rewrite fmap_cons. simpl.
  rewrite !relpath_item, Hsep. simpl.
  rewrite visit_files_candidates.
  destruct (visit_files _ _ (files item) data); simpl; [apply IH | reflexivity].
Qed.

(** X6.  The files that fail the test on their name do not count: a host on
    which the walk is the same but for those files gives the same outcome,
    frame or fault. *)
Theorem passed_over_files_do_not_count (h1 h2 : host) (l : lib)
  (image_directory : string) :
  @walk h2 image_directory = candidates_only <$> @walk h1 image_directory ->
  @sep h1 = @sep h2 ->
  @check_ToD h1 l image_directory = @check_ToD h2 l image_directory.
Proof.
  intros Hwalk Hsep. unfold check_ToD.
  now rewrite Hwalk, (visit_items_candidates h1 h2).
Qed.

Lemma passed_over_files_do_not_count_witness :
  @walk Pruned.posix "CT_Images" = candidates_only <$> @walk Sample.posix "CT_Images"
  /\ @walk Pruned.posix "CT_Images" <> @walk Sample.posix "CT_Images"
  /\ @check_ToD Sample.posix Sample.stored "CT_Images"
     = @check_ToD Pruned.posix Sample.stored "CT_Images".
Proof.
  assert (Hwalk : @walk Pruned.posix "CT_Images"
                  = candidates_only <$> @walk Sample.posix "CT_Images")
    by reflexivity.
  split; [exact Hwalk|]. split; [discriminate|].
  exact (passed_over_files_do_not_count Sample.posix Pruned.posix Sample.stored
           "CT_Images" Hwalk eq_refl).
Defined.



(** ** The command line, in general *)

Section Arguments.
Context `{runtime}.

(** Whatever the arguments, the namespace of the parser has no attribute
    [output_directory], provided its handling of dashed arguments defines
    none. *)
Lemma parse_args_no_output_directory (argv : list string) (ns : gmap string string) :
  (forall args ns', parse_dashed args = Ok ns' -> ns' !! "output_directory" = None) ->
  parse_args argv = Ok ns -> ns !! "output_directory" = None.
Proof.
  intros Hdashed. unfold parse_args.
  destruct (existsb dashed argv); [apply Hdashed|].
  destruct argv as [|d [|s [|x rest]]]; try discriminate.
  intros [= <-]. now rewrite !lookup_insert_ne, lookup_empty by discriminate.
Qed.

End Arguments.



(** X9.  [main] never ends well and never writes a file.  Whatever the
    arguments, the run ends with an exception and the files are as they
    were, as long as the parser gives no namespace with an attribute
    [output_directory]. *)
Theorem main_never_completes `{host} `{lib} `{runtime}
  (argv : list string) (w : world) :
  (forall args ns, parse_dashed args = Ok ns -> ns !! "output_directory" = None) ->
  exists e, (main argv w).1 = Raise e /\ written (main argv w).2 = written w.
Proof.
  intros Hdashed. unfold main, io_bind, lift, io_ret, print.
  destruct argv as [|a rest]; simpl; [eauto|].
  destruct (parse_args (a :: rest)) as [ns|e] eqn:Hparse; [|eauto].
  apply (parse_args_no_output_directory _ _ Hdashed) in Hparse.
  unfold getattr. rewrite Hparse.
  destruct (ns !! "image_directory") as [d|]; [|eauto].
  destruct (path_exists d); simpl; eauto.
Qed.

Lemma main_never_completes_witness :
  (forall args ns, parse_dashed (runtime := Sample.plain_runtime) args = Ok ns ->
                   ns !! "output_directory" = None)
  /\ exists e,
       (main (H := Sample.posix) (H0 := Sample.stored) (H1 := Sample.plain_runtime)
             ["CT_Images"; "out"; "more"] Sample.fresh).1 = Raise e
       /\ written (main (H := Sample.posix) (H0 := Sample.stored)
                        (H1 := Sample.plain_runtime)
                        ["CT_Images"; "out"; "more"] Sample.fresh).2
          = written Sample.fresh.
Proof.
  assert (Hdashed : forall args ns,
             parse_dashed (runtime := Sample.plain_runtime) args = Ok ns ->
             ns !! "output_directory" = None) by (intros args ns; discriminate).
  split; [exact Hdashed|].
  exact (main_never_completes (H := Sample.posix) (H0 := Sample.stored)
           (H1 := Sample.plain_runtime) ["CT_Images"; "out"; "more"] Sample.fresh
           Hdashed).
Defined.

(** X10.  Called with a directory that does not exist, [main] stops at its
    assertion, with the message that names the directory, before anything is
    printed or written. *)
Theorem main_asserts_the_directory `{host} `{lib} `{runtime}
  (d s : string) (w : world) :
  dashed d = false -> dashed s = false -> path_exists d = false ->
  main [d; s] w
  = (Raise (AssertionError ("Image directory " +:+ d +:+ " does not exist")), w).
Proof. apply main_missing_directory. Qed.

Lemma main_asserts_the_directory_witness :
  dashed "CT_Mispelled" = false /\ dashed "out" = false
  /\ path_exists (host := Sample.posix) "CT_Mispelled" = false
  /\ main (H := Sample.posix) (H0 := Sample.stored) (H1 := Sample.plain_runtime)
          ["CT_Mispelled"; "out"] Sample.fresh
     = (Raise (AssertionError "Image directory CT_Mispelled does not exist"),
        Sample.fresh).
Proof.
  repeat (split; [reflexivity|]).
  exact (main_asserts_the_directory (H := Sample.posix) (H0 := Sample.stored)
           (H1 := Sample.plain_runtime) "CT_Mispelled" "out" Sample.fresh
           eq_refl eq_refl eq_refl).
Defined.

(** ** Names as keys *)

Section Characters.

Lemma has_char_append (c : ascii) (a b : string) :
  has_char c (a +:+ b) = has_char c a || has_char c b.
Proof.
  induction a as [|d a IH]; [reflexivity|].
  rewrite append_cons. simpl. now rewrite IH, orb_assoc.
Qed.

Lemma has_char_cons (c d : ascii) (x : string) :
  has_char c (String d x) = Ascii.eqb c d || has_char c x.
Proof. reflexivity. Qed.

Lemma has_char_here (c : ascii) (x : string) : has_char c (String c x) = true.
Proof. now rewrite has_char_cons, Ascii.eqb_refl. Qed.

(** A string is cut in one way at the first occurrence of a character. *)
Lemma cut_at_char (c : ascii) (a a' x x' : string) :
  has_char c a = false -> has_char c a' = false ->
  a +:+ String c x = a' +:+ String c x' -> a = a' /\ x = x'.
Proof.
  revert a'. induction a as [|d a IH]; intros [|d' a'] Ha Ha' Heq.
  - injection Heq as ->. auto.
  - rewrite append_cons in Heq. injection Heq as <- _.
    rewrite has_char_here in Ha'. discriminate.
  - rewrite append_cons in Heq. injection Heq as -> _.
    rewrite has_char_here in Ha. discriminate.
  - rewrite !append_cons in Heq. injection Heq as <- Heq.
    simpl in Ha, Ha'. apply orb_false_elim in Ha as [_ Ha], Ha' as [_ Ha'].
    destruct (IH a' Ha Ha' Heq) as [-> ->]. auto.
Qed.

Lemma str_join_cons (c : ascii) (p q : string) (rest : list string) :
  str_join (String c "") (p :: q :: rest)
  = p +:+ String c (str_join (String c "") (q :: rest)).
Proof. reflexivity. Qed.

(** Joining names that are free of a character keeps the result free of it,
    when the separator is another character. *)
Lemma has_char_join (c d : ascii) (parts : list string) :
  c <> d -> Forall (fun p => has_char d p = false) parts ->
  has_char d (str_join (String c "") parts) = false.
Proof.
  intros Hcd. induction parts as [|p [|q rest] IH]; intros Hfree.
  - reflexivity.
  - now apply Forall_inv in Hfree.
  - rewrite str_join_cons, has_char_append, has_char_cons.
    rewrite (Forall_inv Hfree), (IH (Forall_inv_tail Hfree)).
    destruct (Ascii.eqb_spec d c) as [->|_]; [contradiction | reflexivity].
Qed.

(** Names free of the separator can be read back from their join. *)
Lemma str_join_inj (c : ascii) (l l' : list string) :
  l <> [] -> l' <> [] ->
  Forall (fun p => has_char c p = false) l ->
  Forall (fun p => has_char c p = false) l' ->
  str_join (String c "") l = str_join (String c "") l' -> l = l'.
Proof.
  revert l'. induction l as [|p [|q rest] IH]; intros [|p' [|q' rest']] Hl Hl' Hf Hf' Heq;
    try contradiction.
  - simpl in Heq. now subst.
  - rewrite str_join_cons in Heq. simpl in Heq.
    apply Forall_inv in Hf. rewrite Heq, has_char_append, has_char_here in Hf.
    now rewrite orb_true_r in Hf.
  - rewrite str_join_cons in Heq. simpl in Heq.
    apply Forall_inv in Hf'. rewrite <- Heq, has_char_append, has_char_here in Hf'.
    now rewrite orb_true_r in Hf'.
  - rewrite !str_join_cons in Heq.
    apply cut_at_char in Heq as [-> Heq];
      [| exact (Forall_inv Hf) | exact (Forall_inv Hf')].
    f_equal. apply IH; [discriminate | discriminate | | | exact Heq].
    + exact (Forall_inv_tail Hf).
    + exact (Forall_inv_tail Hf').
Qed.

(** The name recorded for the file [f] in the directory reached through the
    names [b], on a host whose separator is the character [c]: the names and
    the file can be read back from it. *)
Lemma recorded_name_inj (c : ascii) (b1 b2 : list string) (f1 f2 : string) :
  c <> "."%char ->
  Forall (plain_name c) (f1 :: b1) -> Forall (plain_name c) (f2 :: b2) ->
  match b1 with [] => "." | _ :: _ => str_join (String c "") b1 end +:+ "/" +:+ f1
  = match b2 with [] => "." | _ :: _ => str_join (String c "") b2 end +:+ "/" +:+ f2 ->
  b1 = b2 /\ f1 = f2.
Proof.
  intros Hdot Hp1 Hp2 Heq.
  apply Forall_cons in Hp1 as [(_ & Hf1 & _) Hb1], Hp2 as [(_ & Hf2 & _) Hb2].
  assert (Hc1 : Forall (fun p => has_char c p = false) b1)
    by (eapply Forall_impl; [exact Hb1 | now intros p (? & _)]).
  assert (Hc2 : Forall (fun p => has_char c p = false) b2)
    by (eapply Forall_impl; [exact Hb2 | now intros p (? & _)]).
  assert (Hs1 : Forall (fun p => has_char "/" p = false) b1)
    by (eapply Forall_impl; [exact Hb1 | now intros p (_ & ? & _)]).
  assert (Hs2 : Forall (fun p => has_char "/" p = false) b2)
    by (eapply Forall_impl; [exact Hb2 | now intros p (_ & ? & _)]).
  assert (Hn1 : Forall (fun p => p <> ".") b1)
    by (eapply Forall_impl; [exact Hb1 | now intros p (_ & _ & ?)]).
  assert (Hn2 : Forall (fun p => p <> ".") b2)
    by (eapply Forall_impl; [exact Hb2 | now intros p (_ & _ & ?)]).
  change ("/" +:+ f1) with (String "/" f1) in Heq.
  change ("/" +:+ f2) with (String "/" f2) in Heq.
  destruct (Ascii.eqb_spec c "/") as [->|Hslash].
  - (* the separator is the slash: one join of the names and the file *)
    assert (Hjoin : forall b f,
               match b with [] => "." | _ :: _ => str_join "/" b end +:+ String "/" f
               = str_join "/" (match b with [] => ["."] | _ :: _ => b end ++ [f])).
    { intros [|p rest] f; [reflexivity|]. now rewrite str_join_snoc. }
    rewrite !Hjoin in Heq.
    apply str_join_inj in Heq.
    + apply app_inj_tail in Heq as [Hb ->]. split; [|reflexivity].
      destruct b1 as [|p1 r1], b2 as [|p2 r2]; try reflexivity; try assumption.
      * injection Hb as <- _. now apply Forall_inv in Hn2.
      * injection Hb as -> _. now apply Forall_inv in Hn1.
    + now destruct b1.
    + now destruct b2.
    + apply Forall_app. split; [|now repeat constructor].
      destruct b1; [now repeat constructor | assumption].
    + apply Forall_app. split; [|now repeat constructor].
      destruct b2; [now repeat constructor | assumption].
  - (* another separator: the slash cuts the name once *)
    assert (Hrel : forall b, Forall (fun p => has_char "/" p = false) b ->
               has_char "/" match b with [] => "." | _ :: _ => str_join (String c "") b end
               = false).
    { intros [|p rest] Hb; [reflexivity|]. now apply has_char_join. }
    apply cut_at_char in Heq as [Hb ->]; [|now apply Hrel..].
    split; [|reflexivity].
    assert (Hroot : forall p rest,
               Forall (fun p => p <> ".") (p :: rest) ->
               "." <> str_join (String c "") (p :: rest)).
    { intros p [|q rest] Hn Hdotname.
      - apply Forall_inv in Hn. now symmetry in Hdotname.
      - rewrite str_join_cons in Hdotname.
        apply (f_equal (has_char c)) in Hdotname.
        rewrite has_char_append, has_char_here, orb_true_r in Hdotname.
        simpl in Hdotname. rewrite orb_false_r in Hdotname.
        now destruct (Ascii.eqb_spec c "."). }
    destruct b1 as [|p1 r1], b2 as [|p2 r2].
    + reflexivity.
    + now apply Hroot in Hb.
    + symmetry in Hb. now apply Hroot in Hb.
    + apply (str_join_inj c); [discriminate | discriminate | assumption..].
Qed.

End Characters.

(** X11.  The recorded name tells the file.  On a host whose separator is
    one character, with names as a directory listing gives them (free of the
    separator and of the forward slash, and not [.]), two rows with the same
    name stand for the same file name in the same directory. *)
Theorem recorded_name_tells_the_file `{host} `{lib} (c : ascii)
  (image_directory : string) (item1 item2 : walk_item) (f1 f2 : string)
  (r1 r2 : row) :
  sep = String c "" -> c <> "."%char ->
  Forall (plain_name c) (f1 :: below item1) ->
  Forall (plain_name c) (f2 :: below item2) ->
  r1 ∈ emitted image_directory item1 f1 ->
  r2 ∈ emitted image_directory item2 f2 ->
  filename r1 = filename r2 ->
  below item1 = below item2 /\ f1 = f2.
Proof.
  intros Hsep Hdot Hp1 Hp2 Hr1 Hr2 Heq.
  apply emitted_row in Hr1 as (m1 & _ & _ & -> & _).
  apply emitted_row in Hr2 as (m2 & _ & _ & -> & _).
  simpl in Heq. rewrite !relpath_item, Hsep in Heq.
  now apply (recorded_name_inj c).
Qed.

Lemma recorded_name_tells_the_file_witness :
  let item := WalkItem "CT_Images\sub\deep" ["sub"; "deep"] [] ["b.JPG"; "a.JPG"] in
  let r := Row "sub\deep/a.JPG" (S754_finite false 6685030696878080 (-45))
               (S754_finite false 6157265115545600 (-45)) false in
  sep (host := Sample.windows) = String "\" ""
  /\ Forall (plain_name "\") ("a.JPG" :: below item)
  /\ r ∈ emitted (H := Sample.windows) (H0 := Sample.stored) "CT_Images" item "a.JPG"
  /\ below item = below item /\ "a.JPG" = "a.JPG".
Proof.
  intros item r.
  assert (Hplain : Forall (plain_name "\") ("a.JPG" :: below item))
    by (repeat constructor; discriminate).
  assert (Hr : r ∈ emitted (H := Sample.windows) (H0 := Sample.stored)
                     "CT_Images" item "a.JPG") by left.
  split; [reflexivity|]. split; [exact Hplain|]. split; [exact Hr|].
  refine (recorded_name_tells_the_file (H := Sample.windows) (H0 := Sample.stored)
            "\" "CT_Images" item item "a.JPG" "a.JPG" r r
            eq_refl _ Hplain Hplain Hr Hr eq_refl).
  discriminate.
Defined.

(** ** Listings *)

Section Listings.
Context `{host}.

Lemma listed_Dir (c : ascii) (n : string) (children : list entry) :
  listed c (Dir n children)
  <-> plain_name c n /\ NoDup (entry_name <$> children)
      /\ Forall (listed c) children.
Proof.
  simpl. split; intros (Hn & Hnd & Hall); (split; [exact Hn | split; [exact Hnd|]]).
  - induction children as [|x l IH]; constructor.
    + apply Hall.
    + apply IH; [now apply NoDup_cons in Hnd | apply Hall].
  - clear Hnd. induction Hall as [|x l Hx _ IH]; [exact I | split; assumption].
Qed.

Lemma nondirs_of_cons (e : entry) (es : list entry) :
  nondirs_of (e :: es)
  = match e with
    | File n => [n]
    | Dir _ _ => []
    | Dir_unvisited _ => []
    end ++ nondirs_of es.
Proof. reflexivity. Qed.

Lemma nondirs_of_names (es : list entry) (f : string) :
  f ∈ nondirs_of es -> f ∈ entry_name <$> es.
Proof.
  induction es as [|e es IH]; [inversion 1|].
  rewrite nondirs_of_cons, elem_of_app, fmap_cons, elem_of_cons.
  intros [Hhere | Hrest]; [left | right; now apply IH].
  destruct e; now inversion Hhere.
Qed.

Lemma nondirs_of_NoDup (es : list entry) :
  NoDup (entry_name <$> es) -> NoDup (nondirs_of es).
Proof.
  induction es as [|e es IH]; [constructor|].
  rewrite fmap_cons, nondirs_of_cons. intros [Hfresh Hrest]%NoDup_cons.
  destruct e; try (now apply IH).
  apply NoDup_cons. split; [|now apply IH].
  intros Hin. now apply nondirs_of_names in Hin.
Qed.

Lemma nondirs_of_plain (c : ascii) (es : list entry) :
  Forall (listed c) es -> Forall (plain_name c) (nondirs_of es).
Proof.
  induction 1 as [|e es He _ IH]; [constructor|].
  rewrite nondirs_of_cons.
  destruct e; try exact IH. now constructor.
Qed.

(** Every item of the walk below an entry lies under the name of the
    entry. *)
Lemma walk_entry_below (e : entry) (top : string) (names : list string)
  (item : walk_item) :
  item ∈ walk_entry top names e ->
  exists more, below item = names ++ entry_name e :: more.
Proof.
  revert top names.
  induction e as [n|n children IH|n] using entry_children_ind;
    intros top names Hin; simpl in Hin.
  - inversion Hin.
  - apply elem_of_cons in Hin as [-> | Hin].
    + now exists [].
    + apply list_elem_of_In, in_flat_map in Hin as (x & Hx & Hin).
      apply list_elem_of_In in Hx, Hin. rewrite Forall_forall in IH.
      destruct (IH x Hx _ _ Hin) as (more & ->).
      exists (entry_name x :: more). now rewrite <- app_assoc.
  - inversion Hin.
Qed.

(** The walks below entries of different names do not meet. *)
Lemma walk_children_NoDup (top : string) (names : list string)
  (children : list entry) :
  NoDup (entry_name <$> children) ->
  Forall (fun x => NoDup (below <$> walk_entry top names x)) children ->
  NoDup (below <$> flat_map (walk_entry top names) children).
Proof.
  induction children as [|x l IH]; [constructor|].
  rewrite fmap_cons. intros [Hfresh Hrest]%NoDup_cons [Hx Hl]%Forall_cons.
  simpl. rewrite fmap_app. apply NoDup_app. split; [exact Hx|].
  split; [|now apply IH].
  intros b (i1 & -> & Hi1)%list_elem_of_fmap (i2 & Hb & Hi2)%list_elem_of_fmap.
  apply walk_entry_below in Hi1 as (m1 & Hb1).
  apply list_elem_of_In, in_flat_map in Hi2 as (y & Hy & Hi2).
  apply list_elem_of_In in Hy, Hi2.
  apply walk_entry_below in Hi2 as (m2 & Hb2).
  rewrite Hb1, Hb2 in Hb. apply app_inv_head in Hb. injection Hb as Hname _.
  apply Hfresh. rewrite Hname. now apply list_elem_of_fmap_2.
Qed.

Lemma walk_entry_NoDup (c : ascii) (e : entry) (top : string) (names : list string) :
  listed c e -> NoDup (below <$> walk_entry top names e).
Proof.
  revert top names.
  induction e as [n|n children IH|n] using entry_children_ind;
    intros top names Hlisted; simpl; try constructor.
  - apply listed_Dir in Hlisted as (_ & Hnd & Hall).
    intros (item & Hb & Hin)%list_elem_of_fmap.
    apply list_elem_of_In, in_flat_map in Hin as (x & Hx & Hin).
    apply list_elem_of_In in Hin. apply walk_entry_below in Hin as (more & Hmore).
    rewrite Hmore, <- app_assoc in Hb. simpl in Hb.
    apply (f_equal length) in Hb. rewrite !length_app in Hb. simpl in Hb. lia.
  - apply listed_Dir in Hlisted as (_ & Hnd & Hall).
    apply walk_children_NoDup; [exact Hnd|].
    rewrite Forall_forall in IH, Hall. apply Forall_forall.
    intros x Hx. now apply IH, Hall.
Qed.

(** The names an item of the walk carries are plain, and its files are
    listed once. *)
Lemma walk_entry_listed (c : ascii) (e : entry) (top : string)
  (names : list string) (item : walk_item) :
  listed c e -> Forall (plain_name c) names ->
  item ∈ walk_entry top names e ->
  Forall (plain_name c) (below item)
  /\ Forall (plain_name c) (files item) /\ NoDup (files item).
Proof.
  revert top names.
  induction e as [n|n children IH|n] using entry_children_ind;
    intros top names Hlisted Hnames Hin; simpl in Hin.
  - inversion Hin.
  - apply listed_Dir in Hlisted as (Hn & Hnd & Hall).
    assert (Hnames' : Forall (plain_name c) (names ++ [n]))
      by (apply Forall_app; split; [exact Hnames | now constructor]).
    apply elem_of_cons in Hin as [-> | Hin]; simpl.
    + split; [exact Hnames'|].
      split; [now apply nondirs_of_plain | now apply nondirs_of_NoDup].
    + apply list_elem_of_In, in_flat_map in Hin as (x & Hx & Hin).
      apply list_elem_of_In in Hx, Hin.
      rewrite Forall_forall in IH, Hall.
      exact (IH x Hx _ _ (Hall x Hx) Hnames' Hin).
  - inversion Hin.
Qed.

Lemma walk_listed (c : ascii) (top : string) (es : list entry) :
  scandir_tree top = Some es -> listing c es ->
  NoDup (below <$> walk top)
  /\ Forall (fun item => Forall (plain_name c) (below item)
                         /\ Forall (plain_name c) (files item)
                         /\ NoDup (files item)) (walk top).
Proof.
  intros Hscan [Hnd Hall]. unfold walk. rewrite Hscan. split.
  - rewrite fmap_cons. apply NoDup_cons. split.
    + intros (item & Hb & Hin)%list_elem_of_fmap.
      apply list_elem_of_In, in_flat_map in Hin as (x & Hx & Hin).
      apply list_elem_of_In in Hin. apply walk_entry_below in Hin as (more & Hmore).
      simpl in Hb. rewrite Hmore in Hb. discriminate.
    + apply walk_children_NoDup; [exact Hnd|].
      eapply Forall_impl; [exact Hall|]. intros x Hx. now apply (walk_entry_NoDup c).
  - constructor; simpl.
    + split; [constructor|].
      split; [now apply nondirs_of_plain | now apply nondirs_of_NoDup].
    + apply Forall_forall. intros item Hin.
      apply list_elem_of_In, in_flat_map in Hin as (x & Hx & Hin).
      apply list_elem_of_In in Hx, Hin. rewrite Forall_forall in Hall.
      now apply (walk_entry_listed c x top [] item (Hall x Hx)).
Qed.

End Listings.

Section Keys.
Context `{host} `{lib}.

Lemma emitted_names (root : string) (item : walk_item) (f : string) :
  filename <$> emitted root item f `sublist_of` [relpath item root +:+ "/" +:+ f].
Proof.
  unfold emitted, visit_file.
  destruct (passes_filter f); [|apply sublist_nil_l].
  destruct (imread _) as [m|]; simpl; [|apply sublist_nil_l].
  destruct (float_lt _ five); [reflexivity|].
  destruct (float_gt _ five); [reflexivity | apply sublist_nil_l].
Qed.

Lemma files_names (root : string) (item : walk_item) (fs : list string) :
  filename <$> flat_map (emitted root item) fs
  `sublist_of` (fun f => relpath item root +:+ "/" +:+ f) <$> fs.
Proof.
  induction fs as [|f fs IH]; [reflexivity|].
  simpl. rewrite fmap_app.
  apply (sublist_app _ [_]); [apply emitted_names | exact IH].
Qed.

Lemma items_names (root : string) (items : list walk_item) :
  filename <$> flat_map (fun item => flat_map (emitted root item) (files item)) items
  `sublist_of`
  flat_map (fun item => (fun f => relpath item root +:+ "/" +:+ f) <$> files item) items.
Proof.
  induction items as [|item items IH]; [reflexivity|].
  simpl. rewrite fmap_app.
  apply sublist_app; [apply files_names | exact IH].
Qed.

(** The names to record for the files of items that lie in different
    places are all different. *)
Lemma names_to_record_NoDup (c : ascii) (root : string) (items : list walk_item) :
  sep = String c "" -> c <> "."%char ->
  NoDup (below <$> items) ->
  Forall (fun item => Forall (plain_name c) (below item)
                      /\ Forall (plain_name c) (files item)
                      /\ NoDup (files item)) items ->
  NoDup (flat_map (fun item => (fun f => relpath item root +:+ "/" +:+ f) <$> files item)
           items).
Proof.
  intros Hsep Hdot. induction items as [|item items IH]; [constructor|].
  rewrite fmap_cons.
  intros [Hfresh Hrest]%NoDup_cons [(Hb & Hf & Hnd) Hitems]%Forall_cons.
  simpl. apply NoDup_app. split; [|split; [|now apply IH]].
  - apply NoDup_fmap_2_strong; [|exact Hnd].
    intros f1 f2 _ _ Heq. apply (inj _) in Heq. now apply (inj _) in Heq.
  - intros name (f & -> & Hfin)%list_elem_of_fmap Hin.
    apply list_elem_of_In, in_flat_map in Hin as (other & Ho & Hin).
    apply list_elem_of_In in Ho, Hin.
    apply list_elem_of_fmap in Hin as (g & Heq & Hg).
    destruct (proj1 (Forall_forall _ _) Hitems other Ho) as (Hb' & Hf' & _).
    pose proof (proj1 (Forall_forall _ _) Hf f Hfin) as Hplain.
    pose proof (proj1 (Forall_forall _ _) Hf' g Hg) as Hplain'.
    rewrite !relpath_item, Hsep in Heq.
    apply (recorded_name_inj c) in Heq as [Hsame _];
      [| exact Hdot | now constructor | now constructor].
    apply Hfresh. rewrite Hsame. now apply list_elem_of_fmap_2.
Qed.

End Keys.

(** X12.  The recorded name is a key of the frame.  On a host whose
    separator is one character, for a scanned directory listed as a file
    system lists it (plain names, no name twice in a directory), no two rows
    of the frame have the same name. *)
Theorem recorded_names_are_distinct `{host} `{lib} (c : ascii)
  (image_directory : string) (es : list entry) (df : DataFrame) :
  sep = String c "" -> c <> "."%char ->
  scandir_tree image_directory = Some es ->
  listing c es ->
  check_ToD image_directory = Ok df ->
  NoDup (filename <$> rows df).
Proof.
  intros Hsep Hdot Hscan Hlisting ->%check_ToD_rows.
  destruct (walk_listed c _ _ Hscan Hlisting) as [Hnd Hall].
  refine (sublist_NoDup _ _ _ (items_names _ _)).
  now apply (names_to_record_NoDup c).
Qed.

Lemma recorded_names_are_distinct_witness :
  let es := [File "IMG_0001.JPG"; File "notes.txt";
             Dir "sub" [File "a.JPG"; Dir "deep" [File "b.JPG"; File "a.JPG"]];
             Dir_unvisited "link"; File "photo.jpeg"] in
  scandir_tree (host := Sample.windows) "CT_Images" = Some es
  /\ listing "\" es
  /\ exists df,
       check_ToD (H := Sample.windows) (H0 := Sample.stored) "CT_Images" = Ok df
       /\ filename <$> rows df = ["./IMG_0001.JPG"; "sub/a.JPG"; "sub\deep/a.JPG"]
       /\ NoDup (filename <$> rows df).
Proof.
  intros es.
  assert (Hscan : scandir_tree (host := Sample.windows) "CT_Images" = Some es)
    by reflexivity.
  assert (Hlisting : listing "\" es).
  { split.
    - apply (bool_decide_unpack _). vm_compute. reflexivity.
    - repeat first
        [ apply Forall_nil_2
        | apply Forall_cons_2
        | exact I
        | split
        | reflexivity
        | discriminate
        | (apply (bool_decide_unpack _); vm_compute; reflexivity) ]. }
  split; [exact Hscan|]. split; [exact Hlisting|].
  eexists. split; [vm_compute; reflexivity|]. split; [reflexivity|].
  refine (recorded_names_are_distinct (H := Sample.windows) (H0 := Sample.stored)
            "\" "CT_Images" es _ eq_refl _ Hscan Hlisting _).
  - discriminate.
  - vm_compute. reflexivity.
Defined.

(** ** Images without saturation *)

Section Conversion.

Lemma digits2_pos_iter_xO (p d : positive) :
  digits2_pos (Pos.iter xO p d) = (digits2_pos p + d)%positive.
Proof.
  induction d as [|d IH] using Pos.peano_ind.
  - simpl. lia.
  - rewrite Pos.iter_succ. simpl. rewrite IH. lia.
Qed.

Lemma digits2_pos_lower (p : positive) :
  (2 ^ (Zpos (digits2_pos p) - 1) <= Zpos p)%Z.
Proof.
  induction p as [p IH|p IH|]; simpl; [| |lia];
    rewrite Pos2Z.inj_succ;
    replace (Z.succ (Zpos (digits2_pos p)) - 1)%Z
      with (Z.succ (Zpos (digits2_pos p) - 1))%Z by lia;
    rewrite Z.pow_succ_r by lia; lia.
Qed.

Lemma digits2_pos_small (p : positive) :
  (Zpos p < 2 ^ 53)%Z -> (Zpos (digits2_pos p) <= 53)%Z.
Proof.
  intros Hp.
  destruct (Z_le_gt_dec (Zpos (digits2_pos p)) 53) as [|Hbig]; [assumption|].
  pose proof (digits2_pos_lower p) as Hlow.
  assert (2 ^ 53 <= 2 ^ (Zpos (digits2_pos p) - 1))%Z
    by (apply Z.pow_le_mono_r; lia).
  lia.
Qed.

(** A mantissa of 53 digits with an exponent in range is not rounded. *)
Lemma binary_round_aux_exact (m : positive) (e : Z) :
  Zpos (digits2_pos m) = 53%Z -> (-1074 <= e <= 971)%Z ->
  binary_round_aux 53 1024 false (Zpos m) e loc_Exact = S754_finite false m e.
Proof.
  intros Hd He.
  assert (Hz : (fexp 53 1024 (53 + e) - e = 0)%Z) by (unfold fexp, emin; lia).
  unfold binary_round_aux, shr_fexp. cbn [Zdigits2]. rewrite Hd, Hz.
  cbn [shr_record_of_loc shr shr_m loc_of_shr_record round_nearest_even Zdigits2].
  rewrite Hd, Hz.
  cbn [shr_record_of_loc shr shr_m].
  replace (e <=? 1024 - 53)%Z with true by (symmetry; apply Z.leb_le; lia).
  reflexivity.
Qed.

(** A positive integer below 2^53 converts to a finite, positive float. *)
Lemma float_of_Z_pos (p : positive) :
  (Zpos p < 2 ^ 53)%Z ->
  exists m e, float_of_Z (Zpos p) = S754_finite false m e.
Proof.
  intros Hp%digits2_pos_small.
  unfold float_of_Z, binary_normalize, binary_round, shl_align.
  assert (Hfexp : fexp 53 1024 (Zpos (digits2_pos p) + 0)
                  = (Zpos (digits2_pos p) - 53)%Z)
    by (unfold fexp, emin; lia).
  rewrite Hfexp.
  destruct (Zpos (digits2_pos p) - 53 - 0)%Z as [|q|q] eqn:Hq; [| lia |].
  - rewrite binary_round_aux_exact by lia. eauto.
  - rewrite binary_round_aux_exact; [eauto | | lia].
    rewrite digits2_pos_iter_xO. lia.
Qed.

Lemma add_reduce_zeros (xs : list Z) : Forall (fun x => x = 0%Z) xs -> add_reduce xs = 0%Z.
Proof. induction 1 as [|x xs -> _ IH]; [reflexivity | exact IH]. Qed.

(** The mean of a plane of zeros is zero. *)
Lemma mean_zeros (xs : list Z) :
  xs <> [] -> (Z.of_nat (length xs) < 2 ^ 53)%Z ->
  Forall (fun x => x = 0%Z) xs ->
  mean xs = S754_zero false.
Proof.
  intros Hne Hlen Hzero. unfold mean. rewrite (add_reduce_zeros _ Hzero).
  destruct (Z.of_nat (length xs)) as [|p|p] eqn:Hp.
  - destruct xs; [contradiction | discriminate].
  - destruct (float_of_Z_pos p Hlen) as (m & e & ->). reflexivity.
  - lia.
Qed.

End Conversion.

(** X13.  An image without saturation is flagged as night.  When the second
    channel of the converted image is zero at every pixel (there is a pixel,
    and fewer than 2^53 of them), the file gets its row, with saturation 0.0
    and the night flag set. *)
Theorem unsaturated_image_is_night `{host} `{lib}
  (image_directory : string) (item : walk_item) (f : string) (m : Mat) :
  passes_filter f = true ->
  imread (directory item +:+ "/" +:+ f) = Some m ->
  plane1 (BGR2HSV m) <> [] ->
  (Z.of_nat (length (plane1 (BGR2HSV m))) < 2 ^ 53)%Z ->
  Forall (fun s => s = 0%Z) (plane1 (BGR2HSV m)) ->
  emitted image_directory item f
  = [Row (relpath item image_directory +:+ "/" +:+ f)
         (S754_zero false) (mean (plane2 (BGR2HSV m))) true].
Proof.
  intros Hpass Hread Hne Hlen Hzero.
  rewrite (emitted_decoded _ _ _ m Hpass Hread);
    rewrite (mean_zeros _ Hne Hlen Hzero); [reflexivity | now left].
Qed.

Lemma unsaturated_image_is_night_witness :
  let item := WalkItem "CT_Images/sub" ["sub"] ["deep"] ["a.JPG"] in
  plane1 Infrared.dark = [0; 0; 0; 0]%Z
  /\ emitted (H := Sample.posix) (H0 := Infrared.stored) "CT_Images" item "a.JPG"
     = [Row "sub/a.JPG" (S754_zero false) (mean (plane2 Infrared.dark)) true].
Proof.
  intros item. split; [reflexivity|].
  refine (unsaturated_image_is_night (H := Sample.posix) (H0 := Infrared.stored)
            "CT_Images" item "a.JPG" Infrared.dark eq_refl eq_refl _ _ _).
  - discriminate.
  - reflexivity.
  - repeat constructor.
Defined.
